(** * BoostIQ screening API: indicator engine, scoring policy and pipelines

    A shallow embedding of the screening service (the express application with
    the routes [/api/top-gainers], [/api/explosion-candidates],
    [/api/pre-explosion-signals], [/api/new-listings] and
    [/api/analysis/:symbol]) and of the notification forwarder that polls it,
    together with the properties its specification states about it and
    further properties of the code.

    Numbers.  A JavaScript [Number] is embedded as [jsnum]: an exact rational,
    or one of [NaN], [+Infinity], [-Infinity].  Arithmetic on rationals is
    exact: the binary rounding of IEEE-754 doubles, overflow to infinity and
    the sign of zero are not part of the model.  Everything else that the
    source can observe about a number (division by zero, [NaN] propagation,
    [NaN] comparing false, falsiness of [0] and [NaN]) is.

    Effects.  The handlers run in a small state-and-exception monad over a
    [world]: the two [NodeCache] stores and the log of the requests sent
    upstream.  The upstream is an arbitrary oracle that answers or fails,
    indexed by the number of requests already sent. *)

From Stdlib Require Import QArith Qround Qabs Lqa ZArith Lia Bool List Sorting.Sorted Permutation.
From stdpp Require Import gmap strings.
Import ListNotations.

Local Open Scope Q_scope.

(** ** JavaScript numbers *)

Inductive jsnum : Type :=
| JNum (q : Q)
| JNaN
| JPosInf
| JNegInf.

Module JS.

Definition of_Z (z : Z) : jsnum := JNum (inject_Z z).

(** Sign of a rational, read off its numerator. *)
Definition Qsgn (q : Q) : Z := Z.sgn (Qnum q).

Definition Qis_zero (q : Q) : bool := Z.eqb (Qnum q) 0.

(** Unary minus. *)
Definition neg (a : jsnum) : jsnum :=
  match a with
  | JNum q => JNum (- q)
  | JNaN => JNaN
  | JPosInf => JNegInf
  | JNegInf => JPosInf
  end.

(** [a + b] *)
Definition add (a b : jsnum) : jsnum :=
  match a, b with
  | JNaN, _ | _, JNaN => JNaN
  | JNum x, JNum y => JNum (x + y)
  | JPosInf, JNegInf | JNegInf, JPosInf => JNaN
  | JPosInf, _ | _, JPosInf => JPosInf
  | JNegInf, _ | _, JNegInf => JNegInf
  end.

(** [a - b] *)
Definition sub (a b : jsnum) : jsnum := add a (neg b).

(** An infinity of the sign [s], [NaN] when [s] is zero. *)
Definition inf_of_sign (s : Z) : jsnum :=
  match s with
  | Z0 => JNaN
  | Zpos _ => JPosInf
  | Zneg _ => JNegInf
  end.

Definition sign (a : jsnum) : Z :=
  match a with
  | JNum q => Qsgn q
  | JNaN => 0%Z
  | JPosInf => 1%Z
  | JNegInf => (-1)%Z
  end.

(** [a * b] *)
Definition mul (a b : jsnum) : jsnum :=
  match a, b with
  | JNaN, _ | _, JNaN => JNaN
  | JNum x, JNum y => JNum (x * y)
  | _, _ => inf_of_sign (sign a * sign b)
  end.

(** [a / b].  A finite number over zero is an infinity of the sign of the
    numerator (zero is taken as [+0]), and [0 / 0] is [NaN]. *)
Definition div (a b : jsnum) : jsnum :=
  match a, b with
  | JNaN, _ | _, JNaN => JNaN
  | JNum x, JNum y => if Qis_zero y then inf_of_sign (Qsgn x) else JNum (x / y)
  | JNum _, _ => JNum 0
  | _, JNum y => if Qis_zero y then a else inf_of_sign (sign a * Qsgn y)
  | _, _ => JNaN
  end.

(** [Math.pow(a, 2)] *)
Definition pow2 (a : jsnum) : jsnum := mul a a.

(** Comparisons: every comparison with [NaN] is false. *)
Definition lt (a b : jsnum) : bool :=
  match a, b with
  | JNaN, _ | _, JNaN => false
  | JNum x, JNum y => negb (Qle_bool y x)
  | JNegInf, JNegInf => false
  | JNegInf, _ => true
  | _, JPosInf => match a with JPosInf => false | _ => true end
  | _, _ => false
  end.

Definition gt (a b : jsnum) : bool := lt b a.

Definition le (a b : jsnum) : bool :=
  match a, b with
  | JNaN, _ | _, JNaN => false
  | JNum x, JNum y => Qle_bool x y
  | JNegInf, _ => true
  | _, JPosInf => true
  | _, _ => false
  end.

Definition ge (a b : jsnum) : bool := le b a.

(** [a === b] on numbers. *)
Definition seq (a b : jsnum) : bool :=
  match a, b with
  | JNum x, JNum y => Qeq_bool x y
  | JPosInf, JPosInf | JNegInf, JNegInf => true
  | _, _ => false
  end.

(** Truthiness of a number: [0] and [NaN] are falsy. *)
Definition truthy (a : jsnum) : bool :=
  match a with
  | JNum q => negb (Qis_zero q)
  | JNaN => false
  | _ => true
  end.

(** [a || b] on numbers. *)
Definition or_else (a b : jsnum) : jsnum := if truthy a then a else b.

(** [Math.sqrt(a)], over a square root [sqrtQ] of the non-negative rationals. *)
Definition sqrt (sqrtQ : Q -> Q) (a : jsnum) : jsnum :=
  match a with
  | JNum q => if Qle_bool 0 q then JNum (sqrtQ q) else JNaN
  | JPosInf => JPosInf
  | _ => JNaN
  end.

(** [Math.round(a)]: the nearest integer, halves going up. *)
Definition round (a : jsnum) : jsnum :=
  match a with
  | JNum q => of_Z (Qfloor (q + (1 # 2)))
  | _ => a
  end.

(** [parseFloat(a.toFixed(d))]: [a] rounded to [d] decimals, halves going away
    from zero; the digits are kept as a fraction over [10^d].  [NaN] and the
    infinities print as their names and parse back to themselves. *)
Definition toFixed (d : nat) (a : jsnum) : jsnum :=
  match a with
  | JNum q =>
      let s := Z.to_pos (10 ^ Z.of_nat d) in
      let n := Qfloor (Qabs q * inject_Z (Zpos s) + (1 # 2)) in
      JNum (Qmake (if Qle_bool 0 q then n else - n)%Z s)
  | _ => a
  end.

(** Numeric equality of two [jsnum]: the same special value, or rationals
    equal as fractions. *)
Definition equiv (a b : jsnum) : Prop :=
  match a, b with
  | JNum x, JNum y => x == y
  | JNaN, JNaN | JPosInf, JPosInf | JNegInf, JNegInf => True
  | _, _ => False
  end.

Definition is_finite (a : jsnum) : bool :=
  match a with JNum _ => true | _ => false end.

(** The length of an array, as a number. *)
Definition of_length {A} (l : list A) : jsnum := of_Z (Z.of_nat (length l)).

End JS.

Declare Scope js_scope.
Delimit Scope js_scope with js.
Bind Scope js_scope with jsnum.
Infix "+" := JS.add : js_scope.
Infix "-" := JS.sub : js_scope.
Infix "*" := JS.mul : js_scope.
Infix "/" := JS.div : js_scope.
Infix "<?" := JS.lt : js_scope.
Infix "<=?" := JS.le : js_scope.
Infix ">?" := JS.gt : js_scope.
Infix ">=?" := JS.ge : js_scope.
Infix "===" := JS.seq (at level 70, no associativity) : js_scope.
Infix "||" := JS.or_else : js_scope.
Notation "- a" := (JS.neg a) : js_scope.

(** Numeric literals of the source. *)
Coercion JNum : Q >-> jsnum.

Arguments JS.add : simpl never.
Arguments JS.sub : simpl never.
Arguments JS.mul : simpl never.
Arguments JS.div : simpl never.
Arguments JS.lt : simpl never.
Arguments JS.gt : simpl never.
Arguments JS.le : simpl never.
Arguments JS.ge : simpl never.
Arguments JS.round : simpl never.
Arguments JS.toFixed : simpl never.


(** ** Configuration ([CONFIG]) *)

Module CONFIG.
Definition CACHE_SHORT_TTL : Z := 120.
Definition CACHE_LONG_TTL : Z := 1800.
Definition MIN_VOLUME_EXPLOSION : Q := 30000.
Definition MIN_VOLUME_REGULAR : Q := 20000.
Definition MIN_GAIN_5M : Q := 3.
Definition MIN_GAIN_1H : Q := 4.
Definition MIN_VOLUME_RATIO : Q := 1.5.
Definition RSI_MIN : Q := 40.
Definition RSI_MAX : Q := 70.
Definition MIN_EXPLOSION_SCORE : Q := 40.
Definition MIN_ALERT_SCORE : Q := 40.
Definition MAX_CANDIDATES : nat := 50.
Definition TOP_RESULTS : nat := 10.
Definition RSI_PERIOD : nat := 14.
Definition VOLUME_LOOKBACK_DAYS : Z := 7.
Definition COMPRESSION_THRESHOLD : Q := 0.5.
End CONFIG.

Definition POPULAR_TOKENS : gset string :=
  list_to_set
    [ "BTCUSDT"; "ETHUSDT"; "BNBUSDT"; "XRPUSDT"; "ADAUSDT"; "SOLUSDT"; "DOGEUSDT";
      "MATICUSDT"; "DOTUSDT"; "TRXUSDT"; "LTCUSDT"; "LINKUSDT"; "SHIBUSDT"; "AVAXUSDT";
      "ATOMUSDT"; "NEARUSDT"; "XLMUSDT"; "ETCUSDT"; "BCHUSDT"; "HBARUSDT";
      "FILUSDT"; "SUIUSDT"; "APTUSDT"; "INJUSDT"; "IMXUSDT"; "ARBUSDT"; "RNDRUSDT";
      "TONUSDT"; "ICPUSDT"; "CROUSDT"; "NEOUSDT"; "IOTAUSDT"; "QTUMUSDT" ]%string.

(** [POPULAR_TOKENS.has(s)] *)
Definition popular (s : string) : bool := bool_decide (s ∈ POPULAR_TOKENS).

(** [s.endsWith(suffix)] *)
Definition endsWith (s suffix : string) : bool :=
  let n := String.length s in
  let m := String.length suffix in
  (m <=? n)%nat && String.eqb (String.substring (n - m) m s) suffix.

(** [arr.includes(s)] on an array of strings. *)
Definition includes (arr : list string) (s : string) : bool := bool_decide (s ∈ arr).

(** [arr.slice(-n)]: the last [n] elements. *)
Definition slice_last {A} (n : nat) (arr : list A) : list A :=
  skipn (length arr - n) arr.

(** [arr.reduce((sum, x) => sum + x, 0)] *)
Definition sum_js (arr : list jsnum) : jsnum := fold_left JS.add arr (JNum 0).

(** ** Data model *)

(** One kline of the upstream: the array
    [[openTime, open, high, low, close, volume, ...]] with its decimal strings
    parsed. *)
Record candle : Type := {
  openTime : Z;
  k_open : Q;
  k_high : Q;
  k_low : Q;
  k_close : Q;  (* candle[4] *)
  k_volume : Q  (* candle[5] *)
}.

Record ticker : Type := {
  t_symbol : string;
  lastPrice : Q;
  priceChangePercent : Q;
  baseVolume : Q
}.

(** An entry of [exchangeInfo.symbols]; [onboardDate || 0] is the field. *)
Record symbol_info : Type := {
  si_symbol : string;
  onboardDate : Z
}.

Inductive action : Type :=
| COMPRA_FUERTE      (* explosion, score >= 80 *)
| MONITOREAR
| POSIBLE_EXPLOSION  (* alert, score >= 80 *)
| EVITAR.

Inductive confidence : Type := MUY_ALTA | ALTA | MEDIA.

Record recommendation : Type := {
  r_action : action;
  buyPrice : jsnum;
  sellTarget : jsnum;
  stopLoss : jsnum;
  r_confidence : confidence
}.

Record technicals : Type := {
  tech_rsi : jsnum;
  tech_volatility : jsnum;
  volumeSpike : jsnum;
  support : jsnum;
  resistance : jsnum
}.

(** An element of the [/api/explosion-candidates] result. *)
Record candidate : Type := {
  symbol : string;
  price : jsnum;
  change_5m : jsnum;
  change_1h : jsnum;
  c_volume : jsnum;
  c_volumeRatio : jsnum;
  c_rsi : jsnum;
  c_volatility : jsnum;
  explosionScore : jsnum;
  isNew : bool;
  c_technicals : technicals;
  c_recommendation : recommendation
}.

(** An element of the [/api/pre-explosion-signals] result. *)
Record alert : Type := {
  a_symbol : string;
  a_price : jsnum;
  a_change_5m : jsnum;
  a_change_1h : jsnum;
  a_volume : jsnum;
  a_volumeRatio : jsnum;
  a_rsi : jsnum;
  alertScore : jsnum;
  a_compression : bool;
  a_volumeSpike : bool;
  a_recommendation : recommendation
}.

(** The body of [/api/analysis/:symbol]. *)
Record analysis : Type := {
  an_symbol : string;
  an_price : jsnum;
  an_change_5m : jsnum;
  an_change_1h : jsnum;
  an_volume : jsnum;
  an_volumeRatio : jsnum;
  an_rsi : jsnum;
  an_volatility : jsnum;
  an_explosionScore : jsnum;
  an_recommendation : recommendation
}.

Inductive payload : Type :=
| PCandidates (l : list candidate)
| PAlerts (l : list alert)
| PAnalysis (a : analysis).

Inductive http_response : Type :=
| Json (p : payload)
| Status500 (error : string).

(** The answer of a route that sends an array: the body, or status 500. *)
Inductive reply (A : Type) : Type :=
| Body (body : A)
| Error500 (error : string).
Arguments Body {A} body.
Arguments Error500 {A} error.

Record gainer : Type := {
  g_symbol : string;
  g_price : jsnum;
  g_priceChangePercent : jsnum
}.

(** ** The world: upstream, caches, request log *)

Inductive klines_query : Type :=
| Limit (n : nat)
| StartTime (since : Z).

Inductive request : Type :=
| ReqKlines (sym interval : string) (q : klines_query)
| ReqTicker24hr
| ReqTicker (sym : string)
| ReqExchangeInfo.

(** The upstream answers ([Some]) or fails ([None]); the first argument is the
    number of requests it has received so far. *)
Record upstream : Type := {
  up_klines : nat -> string -> string -> klines_query -> option (list candle);
  up_ticker24hr : nat -> option (list ticker);
  up_ticker : nat -> string -> option ticker;
  up_exchangeInfo : nat -> option (list symbol_info)
}.

(** A [NodeCache] store: each key holds a value and the time (ms) it dies. *)
Record world : Type := {
  w_log : list request;
  shortCache : gmap string (payload * Z);
  longCache : gmap string (list string * Z)
}.

(** [cache.get(key)] at time [now]: an entry is dead once its time is
    strictly before [now]. *)
Definition cache_get {V} (now : Z) (c : gmap string (V * Z)) (key : string) : option V :=
  match c !! key with
  | Some (v, t) => if (t <? now)%Z then None else Some v
  | None => None
  end.

(** [cache.set(key, v)] at time [now] in a store of standard TTL [ttl] seconds. *)
Definition cache_set {V} (now ttl : Z) (c : gmap string (V * Z)) (key : string) (v : V)
  : gmap string (V * Z) :=
  <[key := (v, (now + ttl * 1000)%Z)]> c.

Definition empty_world : world :=
  {| w_log := []; shortCache := ∅; longCache := ∅ |}.

(** ** The monad of the handlers: state and exceptions *)

Inductive result (A : Type) : Type :=
| Ok (a : A)
| Throw.
Arguments Ok {A} a.
Arguments Throw {A}.

Definition M (A : Type) : Type := world -> result A * world.

Definition ret {A} (a : A) : M A := fun w => (Ok a, w).

Definition throw {A} : M A := fun w => (Throw, w).

Definition bind {A B} (m : M A) (k : A -> M B) : M B :=
  fun w => match m w with
           | (Ok a, w') => k a w'
           | (Throw, w') => (Throw, w')
           end.

(** [try { m } catch (err) { handler }] *)
Definition try_catch {A} (m : M A) (handler : M A) : M A :=
  fun w => match m w with
           | (Ok a, w') => (Ok a, w')
           | (Throw, w') => handler w'
           end.

(** A promise that is awaited later: its outcome is kept as a value. *)
Definition settle {A} (m : M A) : M (result A) :=
  fun w => let (r, w') := m w in (Ok r, w').

Definition await {A} (r : result A) : M A :=
  match r with Ok a => ret a | Throw => throw end.

Notation "'let*' x ':=' m 'in' k" := (bind m (fun x => k))
  (at level 10, x name, m at level 100, k at level 200).
Notation "'run' m 'in' k" := (bind m (fun _ => k))
  (at level 10, m at level 100, k at level 200).

Definition get_world : M world := fun w => (Ok w, w).

Definition set_shortCache (c : gmap string (payload * Z)) : M unit :=
  fun w => (Ok tt, {| w_log := w_log w; shortCache := c; longCache := longCache w |}).

Definition set_longCache (c : gmap string (list string * Z)) : M unit :=
  fun w => (Ok tt, {| w_log := w_log w; shortCache := shortCache w; longCache := c |}).

(** [axios.get(url)]: one request to the upstream, logged. *)
Definition axios_get {A} (ask : nat -> option A) (url : request) : M A :=
  fun w =>
    let w' := {| w_log := w_log w ++ [url];
                 shortCache := shortCache w; longCache := longCache w |} in
    match ask (length (w_log w)) with
    | Some data => (Ok data, w')
    | None => (Throw, w')
    end.

(** [fetchData(url, retries)] *)
Fixpoint fetchData {A} (ask : nat -> option A) (url : request) (retries : nat) : M A :=
  try_catch (axios_get ask url)
    match retries with
    | S r => fetchData ask url r
    | O => throw
    end.

(** [Array.prototype.sort(compare)].  The sort of the language is stable; it
    is embedded as the stable insertion sort, which moves an element behind
    its right neighbour only when [compare] of the two is positive ([NaN]
    counts as zero). *)
Fixpoint sort_insert {A} (compare : A -> A -> jsnum) (x : A) (l : list A) : list A :=
  match l with
  | [] => [x]
  | y :: l' =>
      if (compare x y >? JNum 0)%js then y :: sort_insert compare x l'
      else x :: l
  end.

Definition sort {A} (compare : A -> A -> jsnum) (l : list A) : list A :=
  fold_right (sort_insert compare) [] l.

(** ** IndicatorEngine: the pure part of each [calculate*] function *)

(** [closes.slice(1).map((close, i) => f(close, closes[i]))] *)
Definition map_consecutive {A} (f : jsnum -> jsnum -> A) (closes : list jsnum) : list A :=
  map (fun p => f (fst p) (snd p)) (combine (tl closes) closes).

Definition closes_of (ohlcv : list candle) : list jsnum :=
  map (fun candle => JNum (k_close candle)) ohlcv.

(** The body of [calculateChange] once the klines are there. *)
Definition percentChange (ohlcv : list candle) : jsnum :=
  match ohlcv with
  | c0 :: c1 :: _ =>
      let prevClose := JNum (k_close c0) in
      let currClose := JNum (k_close c1) in
      JS.toFixed 2 ((currClose - prevClose) / prevClose * JNum 100)%js
  | _ => JNum 0
  end.

(** The body of [calculateRSI]. *)
Definition rsi (ohlcv : list candle) : jsnum :=
  let closes := closes_of ohlcv in
  if (length closes <? CONFIG.RSI_PERIOD + 1)%nat then JNum 50 else
  let changes := map_consecutive (fun close prev => close - prev)%js closes in
  let gains := map (fun c => if (c >? JNum 0)%js then c else JNum 0) changes in
  let losses := map (fun c => if (c <? JNum 0)%js then (- c)%js else JNum 0) changes in
  let period := JS.of_Z (Z.of_nat CONFIG.RSI_PERIOD) in
  let avgGain := (sum_js (slice_last CONFIG.RSI_PERIOD gains) / period)%js in
  let avgLoss := (sum_js (slice_last CONFIG.RSI_PERIOD losses) / period)%js in
  if (avgLoss === JNum 0)%js then (if (avgGain >? JNum 0)%js then JNum 100 else JNum 50) else
  let rs := (avgGain / avgLoss)%js in
  JS.round (JNum 100 - (JNum 100 / (JNum 1 + rs)))%js.

(** The body of [calculateVolumeRatio]. *)
Definition volumeRatio (currentVolume : jsnum) (ohlcv : list candle) : jsnum :=
  let avgVolume :=
    (fold_left (fun sum candle => sum + JNum (k_volume candle))%js ohlcv (JNum 0)
       / JS.of_length ohlcv || JNum 1)%js in
  JS.toFixed 2 (currentVolume / avgVolume)%js.

Section Service.

(** [Math.sqrt] on the non-negative rationals. *)
Variable sqrtQ : Q -> Q.

(** The upstream market-data provider. *)
Variable up : upstream.

(** The standard deviation that [calculateCompression] and
    [calculateVolatility] both spell out, the mean being recomputed for every
    element. *)
Definition stdDev_of (changes : list jsnum) : jsnum :=
  JS.sqrt sqrtQ
    (fold_left
       (fun sum c => sum + JS.pow2 (c - (sum_js changes / JS.of_length changes)))%js
       changes (JNum 0)
     / JS.of_length changes)%js.

Definition percent_changes (closes : list jsnum) : list jsnum :=
  map_consecutive (fun close prev => (close - prev) / prev * JNum 100)%js closes.

(** The body of [calculateCompression]. *)
Definition isCompressed (ohlcv : list candle) : bool :=
  let closes := closes_of ohlcv in
  let changes := percent_changes closes in
  let stdDev := stdDev_of changes in
  (stdDev <? JNum CONFIG.COMPRESSION_THRESHOLD)%js.

(** The body of [calculateVolatility]; the string [stdDev.toFixed(2)] is kept
    as the number it prints. *)
Definition volatility (ohlcv : list candle) : jsnum :=
  let changes := percent_changes (closes_of ohlcv) in
  let stdDev := stdDev_of changes in
  JS.toFixed 2 stdDev.

(** ** IndicatorEngine: the [calculate*] functions *)

Definition fetch_klines (sym interval : string) (q : klines_query) : M (list candle) :=
  fetchData (fun n => up_klines up n sym interval q) (ReqKlines sym interval q) 2.

Definition calculateChange (sym timeframe : string) : M jsnum :=
  try_catch
    (let* ohlcv := fetch_klines sym timeframe (Limit 2) in
     ret (percentChange ohlcv))
    (ret (JNum 0)).

Definition calculateRSI (sym : string) : M jsnum :=
  try_catch
    (let* ohlcv := fetch_klines sym "5m" (Limit (CONFIG.RSI_PERIOD + 1)) in
     ret (rsi ohlcv))
    (ret (JNum 50)).

Definition calculateVolumeRatio (now : Z) (sym : string) (currentVolume : jsnum) : M jsnum :=
  try_catch
    (let since := (now - CONFIG.VOLUME_LOOKBACK_DAYS * 24 * 60 * 60 * 1000)%Z in
     let* ohlcv := fetch_klines sym "1d" (StartTime since) in
     ret (volumeRatio currentVolume ohlcv))
    (ret (JNum 1)).

Definition calculateCompression (sym : string) : M bool :=
  try_catch
    (let* ohlcv := fetch_klines sym "5m" (Limit 20) in
     ret (isCompressed ohlcv))
    (ret false).

Definition calculateVolatility (sym : string) : M jsnum :=
  try_catch
    (let* ohlcv := fetch_klines sym "5m" (Limit 20) in
     ret (volatility ohlcv))
    (ret (JNum 10)).

(** The six indicators of one symbol, in the order their requests are sent. *)
Record indicators : Type := {
  change5m : jsnum;
  change1h : jsnum;
  i_rsi : jsnum;
  i_volumeRatio : jsnum;
  compression : bool;
  i_volatility : jsnum
}.

Definition calculate_all (now : Z) (sym : string) (volume : jsnum) : M indicators :=
  let* change5m := calculateChange sym "5m" in
  let* change1h := calculateChange sym "1h" in
  let* rsi := calculateRSI sym in
  let* volumeRatio := calculateVolumeRatio now sym volume in
  let* compression := calculateCompression sym in
  let* volatility := calculateVolatility sym in
  ret {| change5m := change5m; change1h := change1h; i_rsi := rsi;
         i_volumeRatio := volumeRatio; compression := compression;
         i_volatility := volatility |}.

(** ** New listings *)

Definition eligible (s : string) : bool := endsWith s "USDT" && negb (popular s).

Definition getNewListings (now : Z) : M (list string) :=
  try_catch
    (let cacheKey := "newListings"%string in
     let* w := get_world in
     match cache_get now (longCache w) cacheKey with
     | Some cached => ret cached
     | None =>
         let* listings := fetchData (up_exchangeInfo up) ReqExchangeInfo 2 in
         let recentSymbols :=
           map si_symbol
             (firstn CONFIG.MAX_CANDIDATES
                (sort (fun a b => JS.of_Z (onboardDate b) - JS.of_Z (onboardDate a))%js
                   (List.filter (fun s => eligible (si_symbol s)) listings))) in
         run set_longCache (cache_set now CONFIG.CACHE_LONG_TTL (longCache w) cacheKey recentSymbols) in
         ret recentSymbols
     end)
    (ret []).

(** ** ScoringPolicy *)

Definition rsi_in_band (rsi : jsnum) : bool :=
  (rsi >=? JNum CONFIG.RSI_MIN)%js && (rsi <=? JNum CONFIG.RSI_MAX)%js.

(** The score of [/api/explosion-candidates]. *)
Definition explosionScore_of (change5m change1h rsi volumeRatio : jsnum)
    (isNew compression : bool) : jsnum :=
  JS.round
    ((change5m / JNum 25 * JNum 100 * JNum 0.4) +
     (change1h / JNum 35 * JNum 100 * JNum 0.2) +
     (volumeRatio / JNum 10 * JNum 100 * JNum 0.3) +
     ((if rsi_in_band rsi then JNum 100 else JNum 50) * JNum 0.1) +
     (if isNew then JNum 20 else JNum 0) +
     (if compression then JNum 10 else JNum 0) +
     JNum 20)%js.

(** The score of [/api/pre-explosion-signals]. *)
Definition alertScore_of (change5m change1h rsi volumeRatio : jsnum)
    (isNew compression : bool) : jsnum :=
  JS.round
    ((change5m / JNum 25 * JNum 100 * JNum 0.4) +
     (change1h / JNum 35 * JNum 100 * JNum 0.2) +
     (volumeRatio / JNum 10 * JNum 100 * JNum 0.3) +
     ((if rsi_in_band rsi then JNum 100 else JNum 50) * JNum 0.1) +
     (if isNew then JNum 20 else JNum 0) +
     (if compression then JNum 25 else JNum 0) +
     JNum 20)%js.

(** The score of [/api/analysis/:symbol]. *)
Definition analysisScore_of (change5m change1h rsi volumeRatio : jsnum)
    (compression : bool) : jsnum :=
  JS.round
    ((change5m / JNum 25 * JNum 100 * JNum 0.4) +
     (change1h / JNum 35 * JNum 100 * JNum 0.2) +
     (volumeRatio / JNum 10 * JNum 100 * JNum 0.3) +
     ((if rsi_in_band rsi then JNum 100 else JNum 50) * JNum 0.1) +
     (if compression then JNum 10 else JNum 0))%js.

(** The admission test of [/api/explosion-candidates]. *)
Definition explosion_admitted (change5m change1h rsi volumeRatio explosionScore : jsnum) : bool :=
  (change5m >=? JNum CONFIG.MIN_GAIN_5M)%js &&
  (change1h >=? JNum CONFIG.MIN_GAIN_1H)%js &&
  (volumeRatio >=? JNum CONFIG.MIN_VOLUME_RATIO)%js &&
  (rsi >=? JNum CONFIG.RSI_MIN)%js && (rsi <=? JNum CONFIG.RSI_MAX)%js &&
  (explosionScore >=? JNum CONFIG.MIN_EXPLOSION_SCORE)%js.

(** The admission test of [/api/pre-explosion-signals]. *)
Definition alert_admitted (change5m change1h volumeRatio alertScore : jsnum) : bool :=
  (change5m >=? JNum CONFIG.MIN_GAIN_5M)%js &&
  (change1h >=? JNum CONFIG.MIN_GAIN_1H)%js &&
  (volumeRatio >=? JNum CONFIG.MIN_VOLUME_RATIO)%js &&
  (alertScore >=? JNum CONFIG.MIN_ALERT_SCORE)%js.

(** ** RecommendationBuilder *)

Definition explosion_recommendation (price explosionScore : jsnum) : recommendation :=
  {| r_action := if (explosionScore >=? JNum 80)%js then COMPRA_FUERTE else MONITOREAR;
     buyPrice := price;
     sellTarget := JS.toFixed 8 (price * JNum 1.25)%js;
     stopLoss := JS.toFixed 8 (price * JNum 0.95)%js;
     r_confidence := if (explosionScore >=? JNum 80)%js then MUY_ALTA else MEDIA |}.

Definition alert_recommendation (price alertScore : jsnum) : recommendation :=
  {| r_action := if (alertScore >=? JNum 80)%js then POSIBLE_EXPLOSION
                 else if (alertScore >=? JNum 60)%js then MONITOREAR
                 else EVITAR;
     buyPrice := price;
     sellTarget := JS.toFixed 8 (price * JNum 1.12)%js;
     stopLoss := JS.toFixed 8 (price * JNum 0.92)%js;
     r_confidence := if (alertScore >=? JNum 80)%js then ALTA else MEDIA |}.

(** ** ScreeningPipeline: [/api/explosion-candidates] *)

(** What the loop body does with a symbol once its indicators are there:
    the pushed candidate, or nothing. *)
Definition explosion_entry (t : ticker) (price volume : jsnum) (ind : indicators)
    (isNew : bool) : option candidate :=
  let explosionScore :=
    explosionScore_of (change5m ind) (change1h ind) (i_rsi ind) (i_volumeRatio ind)
      isNew (compression ind) in
  if explosion_admitted (change5m ind) (change1h ind) (i_rsi ind) (i_volumeRatio ind)
       explosionScore
  then
    let support := JS.toFixed 8 (price * JNum 0.97)%js in
    let resistance := JS.toFixed 8 (price * JNum 1.05)%js in
    Some {| symbol := t_symbol t;
            price := price;
            change_5m := change5m ind;
            change_1h := change1h ind;
            c_volume := volume;
            c_volumeRatio := i_volumeRatio ind;
            c_rsi := i_rsi ind;
            c_volatility := i_volatility ind;
            explosionScore := explosionScore;
            isNew := isNew;
            c_technicals :=
              {| tech_rsi := i_rsi ind;
                 tech_volatility := i_volatility ind;
                 volumeSpike :=
                   if (i_volumeRatio ind >=? JNum CONFIG.MIN_VOLUME_RATIO)%js
                   then JS.toFixed 2 (i_volumeRatio ind) else JNum 0;
                 support := support;
                 resistance := resistance |};
            c_recommendation := explosion_recommendation price explosionScore |}
  else None.

(** [arr.push(x)] when there is an [x]. *)
Definition push {A} (arr : list A) (x : option A) : list A :=
  match x with Some a => arr ++ [a] | None => arr end.

(** The [for (const t of ...)] loop, [candidates] being the array filled so far. *)
Fixpoint explosion_scan (now : Z) (newListings : list string) (ts : list ticker)
    (candidates : list candidate) : M (list candidate) :=
  match ts with
  | [] => ret candidates
  | t :: rest =>
      if negb (endsWith (t_symbol t) "USDT") || popular (t_symbol t)
      then explosion_scan now newListings rest candidates
      else
        let price := JNum (lastPrice t) in
        let volume := JNum (baseVolume t) in
        if (volume <? JNum CONFIG.MIN_VOLUME_EXPLOSION)%js
        then explosion_scan now newListings rest candidates
        else
          let* ind := calculate_all now (t_symbol t) volume in
          let isNew := includes newListings (t_symbol t) in
          explosion_scan now newListings rest
            (push candidates (explosion_entry t price volume ind isNew))
  end.

(** [if (top.length > TOP_RESULTS) top.length = TOP_RESULTS] *)
Definition clamp_length {A} (top : list A) : list A :=
  if (CONFIG.TOP_RESULTS <? length top)%nat then firstn CONFIG.TOP_RESULTS top else top.

Definition explosion_candidates (now : Z) : M http_response :=
  try_catch
    (let cacheKey := "explosionCandidates"%string in
     let* w := get_world in
     match cache_get now (shortCache w) cacheKey with
     | Some cached => ret (Json cached)
     | None =>
         let* tickerPromise := settle (fetchData (up_ticker24hr up) ReqTicker24hr 2) in
         let* newListings := getNewListings now in
         let* tickerData := await tickerPromise in
         let* candidates :=
           explosion_scan now newListings (firstn CONFIG.MAX_CANDIDATES tickerData) [] in
         let topCandidates :=
           clamp_length
             (firstn CONFIG.TOP_RESULTS
                (sort (fun a b => explosionScore b - explosionScore a)%js candidates)) in
         let* w' := get_world in
         run set_shortCache
               (cache_set now CONFIG.CACHE_SHORT_TTL (shortCache w') cacheKey
                  (PCandidates topCandidates)) in
         ret (Json (PCandidates topCandidates))
     end)
    (ret (Status500 "Internal server error")).

(** ** ScreeningPipeline: [/api/pre-explosion-signals] *)

Definition alert_entry (t : ticker) (price volume : jsnum) (ind : indicators)
    (isNew : bool) : option alert :=
  let alertScore :=
    alertScore_of (change5m ind) (change1h ind) (i_rsi ind) (i_volumeRatio ind)
      isNew (compression ind) in
  if alert_admitted (change5m ind) (change1h ind) (i_volumeRatio ind) alertScore
  then
    Some {| a_symbol := t_symbol t;
            a_price := price;
            a_change_5m := change5m ind;
            a_change_1h := change1h ind;
            a_volume := volume;
            a_volumeRatio := i_volumeRatio ind;
            a_rsi := i_rsi ind;
            alertScore := alertScore;
            a_compression := compression ind;
            a_volumeSpike := (i_volumeRatio ind >=? JNum CONFIG.MIN_VOLUME_RATIO)%js;
            a_recommendation := alert_recommendation price alertScore |}
  else None.

Fixpoint alert_scan (now : Z) (newListings : list string) (ts : list ticker)
    (alerts : list alert) : M (list alert) :=
  match ts with
  | [] => ret alerts
  | t :: rest =>
      if negb (endsWith (t_symbol t) "USDT") || popular (t_symbol t)
      then alert_scan now newListings rest alerts
      else
        let price := JNum (lastPrice t) in
        let volume := JNum (baseVolume t) in
        if (volume <? JNum CONFIG.MIN_VOLUME_REGULAR)%js
        then alert_scan now newListings rest alerts
        else
          let* ind := calculate_all now (t_symbol t) volume in
          let isNew := includes newListings (t_symbol t) in
          alert_scan now newListings rest
            (push alerts (alert_entry t price volume ind isNew))
  end.

Definition pre_explosion_signals (now : Z) : M http_response :=
  try_catch
    (let cacheKey := "preExplosionSignals"%string in
     let* w := get_world in
     match cache_get now (shortCache w) cacheKey with
     | Some cached => ret (Json cached)
     | None =>
         let* tickerPromise := settle (fetchData (up_ticker24hr up) ReqTicker24hr 2) in
         let* newListings := getNewListings now in
         let* tickerData := await tickerPromise in
         let* alerts :=
           alert_scan now newListings (firstn CONFIG.MAX_CANDIDATES tickerData) [] in
         let topAlerts :=
           clamp_length
             (firstn CONFIG.TOP_RESULTS
                (sort (fun a b => alertScore b - alertScore a)%js alerts)) in
         let* w' := get_world in
         run set_shortCache
               (cache_set now CONFIG.CACHE_SHORT_TTL (shortCache w') cacheKey
                  (PAlerts topAlerts)) in
         ret (Json (PAlerts topAlerts))
     end)
    (ret (Status500 "Internal server error")).

(** ** [/api/analysis/:symbol] *)

(** [s.toUpperCase()] on the ASCII letters. *)
Fixpoint toUpperCase (s : string) : string :=
  match s with
  | EmptyString => EmptyString
  | String c s' =>
      let n := Ascii.nat_of_ascii c in
      String (if ((97 <=? n) && (n <=? 122))%nat then Ascii.ascii_of_nat (n - 32) else c)
        (toUpperCase s')
  end.

Definition analysis_symbol (now : Z) (param : string) : M http_response :=
  try_catch
    (let symbol := toUpperCase param in
     let* data := fetchData (fun n => up_ticker up n symbol) (ReqTicker symbol) 2 in
     let price := JNum (lastPrice data) in
     let volume := JNum (baseVolume data) in
     let* ind := calculate_all now symbol volume in
     let explosionScore :=
       analysisScore_of (change5m ind) (change1h ind) (i_rsi ind) (i_volumeRatio ind)
         (compression ind) in
     ret (Json (PAnalysis
            {| an_symbol := symbol;
               an_price := price;
               an_change_5m := change5m ind;
               an_change_1h := change1h ind;
               an_volume := volume;
               an_volumeRatio := i_volumeRatio ind;
               an_rsi := i_rsi ind;
               an_volatility := i_volatility ind;
               an_explosionScore := explosionScore;
               an_recommendation := explosion_recommendation price explosionScore |})))
    (ret (Status500 "Error in individual analysis")).

(** ** [/api/top-gainers] and [/api/new-listings] *)

Definition top_gainers : M (reply (list gainer)) :=
  try_catch
    (let* data := fetchData (up_ticker24hr up) ReqTicker24hr 2 in
     let filtered :=
       map (fun t => {| g_symbol := t_symbol t;
                        g_price := JNum (lastPrice t);
                        g_priceChangePercent := JNum (priceChangePercent t) |})
         (firstn CONFIG.TOP_RESULTS
            (sort (fun a b => JNum (priceChangePercent b) - JNum (priceChangePercent a))%js
               (List.filter
                  (fun d => negb (popular (t_symbol d)) && endsWith (t_symbol d) "USDT"
                            && (JNum (baseVolume d) >=? JNum CONFIG.MIN_VOLUME_REGULAR)%js)
                  data))) in
     ret (Body filtered))
    (ret (Error500 "Error fetching top gainers")).

Definition new_listings (now : Z) : M (reply (list string)) :=
  try_catch
    (let* listings := getNewListings now in
     ret (Body (map (fun symbol => symbol) listings)))
    (ret (Error500 "Error fetching new listings")).

End Service.

(** ** The specification's formulas, in its own words *)

Module Spec.

(** The constants of a scoring scenario (section 4.3). *)
Record policy : Type := {
  REF_5M : Q; REF_1H : Q; REF_VOL : Q;
  W_5M : Q; W_1H : Q; W_VOL : Q; W_RSI : Q;
  BONUS_NEW : Q; BONUS_COMPRESSION : Q; FIXED_TIME_BONUS : Q
}.

(** Nearest integer, halves going up. *)
Definition round (x : Q) : Z := Qfloor (x + (1 # 2)).

(** The composite score of section 4.3. *)
Definition composite_score (P : policy) (change5m change1h volumeRatio : Q)
    (rsiInBand isNewListing compressed : bool) : Z :=
  round
    ((change5m / REF_5M P) * 100 * W_5M P
     + (change1h / REF_1H P) * 100 * W_1H P
     + (volumeRatio / REF_VOL P) * 100 * W_VOL P
     + (if rsiInBand then 100 else 50) * W_RSI P
     + (if isNewListing then BONUS_NEW P else 0)
     + (if compressed then BONUS_COMPRESSION P else 0)
     + FIXED_TIME_BONUS P).

Definition explosion_policy : policy :=
  {| REF_5M := 25; REF_1H := 35; REF_VOL := 10;
     W_5M := 0.4; W_1H := 0.2; W_VOL := 0.3; W_RSI := 0.1;
     BONUS_NEW := 20; BONUS_COMPRESSION := 10; FIXED_TIME_BONUS := 20 |}.

Definition alert_policy : policy :=
  {| REF_5M := 25; REF_1H := 35; REF_VOL := 10;
     W_5M := 0.4; W_1H := 0.2; W_VOL := 0.3; W_RSI := 0.1;
     BONUS_NEW := 20; BONUS_COMPRESSION := 25; FIXED_TIME_BONUS := 20 |}.

(** The policy the single-symbol analysis really applies: no new-listing
    bonus and no fixed time bonus. *)
Definition analysis_policy : policy :=
  {| REF_5M := 25; REF_1H := 35; REF_VOL := 10;
     W_5M := 0.4; W_1H := 0.2; W_VOL := 0.3; W_RSI := 0.1;
     BONUS_NEW := 0; BONUS_COMPRESSION := 10; FIXED_TIME_BONUS := 0 |}.

Definition sum (l : list Q) : Q := fold_left Qplus l 0.

(** Close-to-close deltas, oldest first. *)
Fixpoint deltas (closes : list Q) : list Q :=
  match closes with
  | prev :: (close :: _) as rest => (close - prev) :: deltas rest
  | _ => []
  end.

Definition gain (d : Q) : Q := if Qle_bool d 0 then 0 else d.
Definition loss (d : Q) : Q := if Qle_bool 0 d then 0 else - d.

(** RSI with simple averaging over the last [period] deltas (section 4.2). *)
Definition rsi (period : nat) (closes : list Q) : Z :=
  if (length closes <? period + 1)%nat then 50%Z else
  let recent := skipn (length (deltas closes) - period) (deltas closes) in
  let avgGain := sum (map gain recent) / inject_Z (Z.of_nat period) in
  let avgLoss := sum (map loss recent) / inject_Z (Z.of_nat period) in
  if Qeq_bool avgLoss 0 then (if Qle_bool avgGain 0 then 50%Z else 100%Z)
  else round (100 - 100 / (1 + avgGain / avgLoss)).

(** Population standard deviation: the mean once, then the root of the mean
    squared deviation. *)
Definition population_stdDev (sqrtQ : Q -> Q) (xs : list jsnum) : jsnum :=
  let n := JS.of_length xs in
  let mean := (sum_js xs / n)%js in
  JS.sqrt sqrtQ (sum_js (map (fun x => JS.pow2 (x - mean))%js xs) / n)%js.

End Spec.

(** ** Concrete data for the examples *)

Module Data.

(** A square root that is exact on the squares of fractions and correct to
    16 decimals elsewhere. *)
Definition sqrtQ (q : Q) : Q :=
  Qmake (Z.sqrt (Qnum q * Zpos (Qden q) * 10 ^ 32)) (Qden q * 10 ^ 16).

Definition flat (close vol : Q) : candle :=
  {| openTime := 0; k_open := close; k_high := close; k_low := close;
     k_close := close; k_volume := vol |}.

Definition candles (closes : list Q) : list candle := map (fun c => flat c 1000) closes.

Definition tick (sym : string) (vol : Q) : ticker :=
  {| t_symbol := sym; lastPrice := 2; priceChangePercent := 1; baseVolume := vol |}.

(** The worked example of the specification: change5m = 4, change1h = 5,
    RSI = 55, volumeRatio = 2.0, compressed. *)
Definition worked (compressed : bool) : indicators :=
  {| change5m := JNum 4; change1h := JNum 5; i_rsi := JNum 55;
     i_volumeRatio := JNum 2; compression := compressed; i_volatility := JNum 0.1 |}.

(** Fifty popular tickers in front of one eligible, liquid symbol. *)
Definition crowded : list ticker :=
  repeat (tick "BTCUSDT" 1000000) 50 ++ [tick "NEWUSDT" 1000000].

Definition crowded_upstream : upstream :=
  {| up_klines := fun _ _ _ _ => Some (candles [100; 100]);
     up_ticker24hr := fun _ => Some crowded;
     up_ticker := fun _ s => Some (tick s 1000000);
     up_exchangeInfo := fun _ => Some [] |}.

(** An upstream with one eligible symbol whose klines rise by 5%. *)
Definition rising_upstream : upstream :=
  {| up_klines := fun _ _ _ _ => Some (candles [100; 105]);
     up_ticker24hr := fun _ => Some [tick "BTCUSDT" 1000000; tick "NEWUSDT" 50000];
     up_ticker := fun _ s => Some (tick s 50000);
     up_exchangeInfo := fun _ => None |}.

Definition cached_result : payload := PCandidates [].

Definition warm_world : world :=
  {| w_log := [];
     shortCache :=
       cache_set 0 CONFIG.CACHE_SHORT_TTL
         (cache_set 0 CONFIG.CACHE_SHORT_TTL ∅ "explosionCandidates" cached_result)
         "preExplosionSignals" (PAlerts []);
     longCache := ∅ |}.

End Data.

(** ** The notification forwarder ([index.js]) *)

Module Bot.

(** A token as the forwarder reads it off the JSON of the API: a number
    that is not finite arrives as [null]. *)
Record token : Type := {
  tk_symbol : string;
  tk_explosionScore : option Q
}.

Definition of_candidate (c : candidate) : token :=
  {| tk_symbol := symbol c;
     tk_explosionScore :=
       match explosionScore c with JNum q => Some q | _ => None end |}.

(** [token.explosionScore >= n]; [null] compares as 0. *)
Definition score_ge (t : token) (n : Q) : bool :=
  match tk_explosionScore t with
  | Some q => Qle_bool n q
  | None => Qle_bool n 0
  end.

(** [res.data]: an array of tokens, or anything else. *)
Inductive api_data : Type :=
| Tokens (tokens : list token)
| NotAnArray.

Inductive level : Type := Strong | Moderate.

(** A message sent to the channel: the text of [formatTokenMessage] is kept
    as the token it prints, with the level of the alert. *)
Record message : Type := { m_level : level; m_token : token }.

(** The API and the channel answer or fail; each is indexed by the number
    of calls it has received. *)
Record env : Type := {
  api_get : nat -> option api_data;
  sendMessage : nat -> message -> bool
}.

Record state : Type := {
  api_calls : nat;
  send_calls : nat;
  sent : list message
}.

Definition start : state := {| api_calls := 0; send_calls := 0; sent := [] |}.

(** [await bot.sendMessage(chat, msg)]: [false] when it throws. *)
Definition send (e : env) (m : message) (s : state) : bool * state :=
  if sendMessage e (send_calls s) m
  then (true, {| api_calls := api_calls s; send_calls := S (send_calls s);
                 sent := sent s ++ [m] |})
  else (false, {| api_calls := api_calls s; send_calls := S (send_calls s);
                  sent := sent s |}).

(** The [for (const token of top)] loop; [false] when a send throws. *)
Fixpoint send_alerts (e : env) (top : list token) (s : state) : bool * state :=
  match top with
  | [] => (true, s)
  | token :: rest =>
      if score_ge token 80 then
        match send e {| m_level := Strong; m_token := token |} s with
        | (true, s') => send_alerts e rest s'
        | (false, s') => (false, s')
        end
      else if score_ge token 60 then
        match send e {| m_level := Moderate; m_token := token |} s with
        | (true, s') => send_alerts e rest s'
        | (false, s') => (false, s')
        end
      else send_alerts e rest s
  end.

(** The [try] block of [fetchAndSendAlerts]; [false] when it throws. *)
Definition attempt (e : env) (s : state) : bool * state :=
  let s1 := {| api_calls := S (api_calls s); send_calls := send_calls s; sent := sent s |} in
  match api_get e (api_calls s) with
  | None => (false, s1)
  | Some NotAnArray => (true, s1)
  | Some (Tokens []) => (true, s1)
  | Some (Tokens tokens) => send_alerts e (firstn 10 tokens) s1
  end.

(** [fetchAndSendAlerts(retries)] *)
Fixpoint fetchAndSendAlerts (e : env) (retries : nat) (s : state) : state :=
  match attempt e s with
  | (true, s') => s'
  | (false, s') =>
      match retries with
      | S r => fetchAndSendAlerts e r s'
      | O => s'
      end
  end.

(** The alerts a list of tokens calls for. *)
Definition alerts_of (tokens : list token) : list message :=
  flat_map
    (fun t => if score_ge t 80 then [{| m_level := Strong; m_token := t |}]
              else if score_ge t 60 then [{| m_level := Moderate; m_token := t |}]
              else [])
    tokens.

End Bot.

(** ** The vocabulary of the properties *)

(** [touched w w' d]: from [w] to [w'] the requests [d] were sent and the
    short-lived store was left alone. *)
Definition touched (w w' : world) (d : list request) : Prop :=
  w_log w' = w_log w ++ d /\ shortCache w' = shortCache w.

Definition klines_of (s : string) (r : request) : Prop :=
  exists interval q, r = ReqKlines s interval q.

(** [desc score a b]: [a] may stand before [b]. *)
Definition desc {A} (score : A -> jsnum) (a b : A) : Prop :=
  (score a >=? score b)%js = true.

Definition by_score_desc {A} (score : A -> jsnum) (a b : A) : jsnum :=
  (score b - score a)%js.

(** A ranked list: the first [TOP_RESULTS] of the candidates sorted by score. *)
Definition ranked {A} (score : A -> jsnum) (top : list A) : Prop :=
  exists all, Forall (fun a => score a <> JNaN) all
              /\ top = firstn CONFIG.TOP_RESULTS (sort (by_score_desc score) all).

Definition candidate_ok (c : candidate) : Prop :=
  eligible (symbol c) = true
  /\ explosion_admitted (change_5m c) (change_1h c) (c_rsi c) (c_volumeRatio c)
       (explosionScore c) = true
  /\ exists compressed,
       explosionScore c
       = explosionScore_of (change_5m c) (change_1h c) (c_rsi c) (c_volumeRatio c)
           (isNew c) compressed.

Definition alert_ok (a : alert) : Prop :=
  eligible (a_symbol a) = true
  /\ alert_admitted (a_change_5m a) (a_change_1h a) (a_volumeRatio a) (alertScore a) = true
  /\ a_recommendation a = alert_recommendation (a_price a) (alertScore a)
  /\ exists new,
       alertScore a
       = alertScore_of (a_change_5m a) (a_change_1h a) (a_rsi a) (a_volumeRatio a)
           new (a_compression a).

Definition payload_ok (p : payload) : Prop :=
  match p with
  | PCandidates l => Forall candidate_ok l /\ ranked explosionScore l
  | PAlerts l => Forall alert_ok l /\ ranked alertScore l
  | PAnalysis _ => True
  end.

(** Each scenario keeps its results under its own key. *)
Definition kind_ok (key : string) (p : payload) : Prop :=
  match p with
  | PCandidates _ => key = "explosionCandidates"%string
  | PAlerts _ => key = "preExplosionSignals"%string
  | PAnalysis _ => False
  end.

(** The invariant of the short-lived store: whatever it holds is a result a
    pipeline has produced, under the key of that pipeline. *)
Definition world_ok (w : world) : Prop :=
  forall key p t, shortCache w !! key = Some (p, t) -> payload_ok p /\ kind_ok key p.

(** The symbols of a snapshot slice that reach the indicator computation. *)
Definition explosion_pool (t : ticker) : bool :=
  eligible (t_symbol t)
  && negb (JNum (baseVolume t) <? JNum CONFIG.MIN_VOLUME_EXPLOSION)%js.

Definition alert_pool (t : ticker) : bool :=
  eligible (t_symbol t)
  && negb (JNum (baseVolume t) <? JNum CONFIG.MIN_VOLUME_REGULAR)%js.

Definition response_ok (key : string) (resp : http_response) : Prop :=
  match resp with
  | Json p => payload_ok p /\ kind_ok key p
  | Status500 _ => True
  end.

(** [costs m k]: running [m] sends [k] requests at most. *)
Definition costs {A} (m : M A) (k : nat) : Prop :=
  forall w, (length (w_log (snd (m w))) <= length (w_log w) + k)%nat.

(** [keeps_caches m]: running [m] leaves both stores as they are. *)
Definition keeps_caches {A} (m : M A) : Prop :=
  forall w, shortCache (snd (m w)) = shortCache w /\ longCache (snd (m w)) = longCache w.

Section Reachability.

Variable sqrtQ : Q -> Q.
Variable up : upstream.

(** The worlds the service can be in: it starts with empty stores, and every
    request to one of its routes, at any time, moves it on. *)
Inductive reachable : world -> Prop :=
| reach_start : reachable empty_world
| reach_explosion_candidates (now : Z) (w : world) :
    reachable w -> reachable (snd (explosion_candidates sqrtQ up now w))
| reach_pre_explosion_signals (now : Z) (w : world) :
    reachable w -> reachable (snd (pre_explosion_signals sqrtQ up now w))
| reach_analysis_symbol (now : Z) (param : string) (w : world) :
    reachable w -> reachable (snd (analysis_symbol sqrtQ up now param w)).

End Reachability.

(** * Properties *)

(** ** Numbers *)

Lemma Qfloor_unique (x : Q) (n : Z) :
  inject_Z n <= x -> x < inject_Z (n + 1) -> Qfloor x = n.
Proof.
  intros Hlo Hhi.
  pose proof (Qfloor_le x) as Hfl.
  pose proof (Qlt_floor x) as Hfu.
  assert (Qfloor x < n + 1)%Z by (rewrite Zlt_Qlt; lra).
  assert (n < Qfloor x + 1)%Z by (rewrite Zlt_Qlt; lra).
  lia.
Qed.

Lemma Qfloor_plus_Z (x : Q) (k : Z) : Qfloor (x + inject_Z k) = (Qfloor x + k)%Z.
Proof.
  apply Qfloor_unique.
  - rewrite inject_Z_plus. pose proof (Qfloor_le x). lra.
  - replace (Qfloor x + k + 1)%Z with ((Qfloor x + 1) + k)%Z by lia.
    rewrite inject_Z_plus. pose proof (Qlt_floor x). lra.
Qed.

Lemma round_plus_Z (x : Q) (k : Z) : Spec.round (x + inject_Z k) = (Spec.round x + k)%Z.
Proof.
  unfold Spec.round. rewrite <- Qfloor_plus_Z. apply Qfloor_comp. ring.
Qed.

Lemma Qis_zero_true (q : Q) : JS.Qis_zero q = true <-> q == 0.
Proof.
  unfold JS.Qis_zero, Qeq. simpl. rewrite Z.eqb_eq. lia.
Qed.

Lemma Qis_zero_false (q : Q) : JS.Qis_zero q = false <-> ~ q == 0.
Proof.
  rewrite <- Qis_zero_true. destruct (JS.Qis_zero q); split; congruence.
Qed.

Lemma Qle_bool_false (x y : Q) : Qle_bool x y = false <-> y < x.
Proof.
  rewrite <- not_true_iff_false, Qle_bool_iff. split; [apply Qnot_le_lt | apply Qlt_not_le].
Qed.

(** Comparisons of the source, unfolded to their cases. *)
Ltac js_compare := cbv [JS.lt JS.gt JS.le JS.ge JS.add JS.sub JS.neg].

(** A comparison that holds rules [NaN] out. *)
Lemma ge_true_not_nan (a b : jsnum) : (a >=? b)%js = true -> a <> JNaN.
Proof. destruct a, b; js_compare; congruence. Qed.

Lemma lt_is_not_ge (a : jsnum) (q : Q) :
  a <> JNaN -> (a <? JNum q)%js = negb (a >=? JNum q)%js.
Proof.
  destruct a; js_compare; cbn [negb]; congruence.
Qed.

Lemma ge_trans_Q (a : jsnum) (p q : Q) :
  q <= p -> (a >=? JNum p)%js = true -> (a >=? JNum q)%js = true.
Proof.
  destruct a as [x| | |]; js_compare; try congruence.
  rewrite !Qle_bool_iff. intros. lra.
Qed.

(** ** ScoringPolicy: the scores are the specification's formula *)

Ltac unfold_policy :=
  cbv [Spec.composite_score Spec.REF_5M Spec.REF_1H Spec.REF_VOL Spec.W_5M Spec.W_1H
       Spec.W_VOL Spec.W_RSI Spec.BONUS_NEW Spec.BONUS_COMPRESSION Spec.FIXED_TIME_BONUS
       Spec.explosion_policy Spec.alert_policy Spec.analysis_policy].

(** Arithmetic of the source on rationals, reduced to rational arithmetic. *)
Ltac js_finite :=
  cbv [JS.round JS.add JS.sub JS.neg JS.mul JS.div JS.Qis_zero Qnum Z.eqb JS.of_Z].

Lemma explosionScore_finite (c5 c1 vr : Q) (rsi : jsnum) (isNew comp : bool) :
  explosionScore_of (JNum c5) (JNum c1) rsi (JNum vr) isNew comp
  = JS.of_Z (Spec.composite_score Spec.explosion_policy c5 c1 vr (rsi_in_band rsi) isNew comp).
Proof.
  unfold explosionScore_of. unfold_policy. unfold Spec.round.
  destruct (rsi_in_band rsi), isNew, comp; js_finite; reflexivity.
Qed.

Lemma alertScore_finite (c5 c1 vr : Q) (rsi : jsnum) (isNew comp : bool) :
  alertScore_of (JNum c5) (JNum c1) rsi (JNum vr) isNew comp
  = JS.of_Z (Spec.composite_score Spec.alert_policy c5 c1 vr (rsi_in_band rsi) isNew comp).
Proof.
  unfold alertScore_of. unfold_policy. unfold Spec.round.
  destruct (rsi_in_band rsi), isNew, comp; js_finite; reflexivity.
Qed.

Lemma analysisScore_finite (c5 c1 vr : Q) (rsi : jsnum) (comp : bool) :
  analysisScore_of (JNum c5) (JNum c1) rsi (JNum vr) comp
  = JS.of_Z (Spec.composite_score Spec.analysis_policy c5 c1 vr (rsi_in_band rsi) false comp).
Proof.
  unfold analysisScore_of, Spec.round. unfold_policy.
  destruct (rsi_in_band rsi), comp; js_finite; do 2 f_equal;
    apply Qfloor_comp; ring.
Qed.

(** The explosion policy is the analysis policy plus the two bonuses that the
    analysis leaves out. *)
Lemma explosion_vs_analysis_policy (c5 c1 vr : Q) (band isNew comp : bool) :
  Spec.composite_score Spec.explosion_policy c5 c1 vr band isNew comp
  = (Spec.composite_score Spec.analysis_policy c5 c1 vr band false comp
     + 20 + (if isNew then 20 else 0))%Z.
Proof.
  unfold Spec.composite_score.
  replace (_ + 20 + _)%Z
    with (Spec.round
            (c5 / Spec.REF_5M Spec.analysis_policy * 100 * Spec.W_5M Spec.analysis_policy +
             c1 / Spec.REF_1H Spec.analysis_policy * 100 * Spec.W_1H Spec.analysis_policy +
             vr / Spec.REF_VOL Spec.analysis_policy * 100 * Spec.W_VOL Spec.analysis_policy +
             (if band then 100 else 50) * Spec.W_RSI Spec.analysis_policy +
             (if false then Spec.BONUS_NEW Spec.analysis_policy else 0) +
             (if comp then Spec.BONUS_COMPRESSION Spec.analysis_policy else 0) +
             Spec.FIXED_TIME_BONUS Spec.analysis_policy)
          + (20 + (if isNew then 20 else 0)))%Z by lia.
  rewrite <- round_plus_Z. unfold Spec.round. apply Qfloor_comp. unfold_policy.
  destruct band, isNew, comp; cbv [inject_Z Z.add Pos.add Pos.succ]; ring.
Qed.

(** What [explosion_entry] returns, field by field. *)
Lemma explosion_entry_Some (t : ticker) (price volume : jsnum) (ind : indicators)
    (new : bool) (c : candidate) :
  explosion_entry t price volume ind new = Some c ->
  symbol c = t_symbol t
  /\ change_5m c = change5m ind /\ change_1h c = change1h ind
  /\ c_rsi c = i_rsi ind /\ c_volumeRatio c = i_volumeRatio ind
  /\ isNew c = new
  /\ explosionScore c
     = explosionScore_of (change5m ind) (change1h ind) (i_rsi ind) (i_volumeRatio ind)
         new (compression ind)
  /\ explosion_admitted (change5m ind) (change1h ind) (i_rsi ind) (i_volumeRatio ind)
       (explosionScore c) = true.
Proof.
  unfold explosion_entry.
  destruct (explosion_admitted _ _ _ _ _) eqn:Hadm; [|discriminate].
  intros [= <-]. cbn. repeat split; try reflexivity. exact Hadm.
Qed.

Lemma explosion_admitted_spec (c5 c1 rsi vr score : jsnum) :
  explosion_admitted c5 c1 rsi vr score = true <->
  (c5 >=? JNum 3)%js = true /\ (c1 >=? JNum 4)%js = true /\ (vr >=? JNum 1.5)%js = true
  /\ (JNum 40 <=? rsi)%js = true /\ (rsi <=? JNum 70)%js = true
  /\ (score >=? JNum 40)%js = true.
Proof.
  unfold explosion_admitted. rewrite !andb_true_iff.
  change (rsi >=? JNum CONFIG.RSI_MIN)%js with (JNum 40 <=? rsi)%js.
  tauto.
Qed.




(** The two scores on any numbers, [NaN] and the infinities included: the
    explosion score is the analysis score plus 20, plus 20 more for a new
    listing. *)
Lemma explosionScore_vs_analysisScore (c5 c1 rsi vr : jsnum) (isNew comp : bool) :
  JS.equiv (explosionScore_of c5 c1 rsi vr isNew comp)
    (analysisScore_of c5 c1 rsi vr comp + JNum (20 + (if isNew then 20 else 0)))%js.
Proof.
  destruct c5 as [c5| | |], c1 as [c1| | |], vr as [vr| | |];
    try (unfold explosionScore_of, analysisScore_of;
         destruct (rsi_in_band rsi), isNew, comp; exact I).
  rewrite explosionScore_finite, analysisScore_finite, explosion_vs_analysis_policy.
  unfold JS.of_Z, JS.add, JS.equiv. rewrite !inject_Z_plus.
  destruct isNew; cbv [inject_Z]; ring.
Qed.


(** ** RecommendationBuilder of the alerts *)

Lemma alert_entry_Some (t : ticker) (price volume : jsnum) (ind : indicators)
    (isNew : bool) (a : alert) :
  alert_entry t price volume ind isNew = Some a ->
  a_symbol a = t_symbol t
  /\ alertScore a
     = alertScore_of (change5m ind) (change1h ind) (i_rsi ind) (i_volumeRatio ind)
         isNew (compression ind)
  /\ alert_admitted (change5m ind) (change1h ind) (i_volumeRatio ind) (alertScore a) = true
  /\ a_recommendation a = alert_recommendation price (alertScore a).
Proof.
  unfold alert_entry.
  destruct (alert_admitted _ _ _ _) eqn:Hadm; [|discriminate].
  intros [= <-]. cbn. repeat split; try reflexivity. exact Hadm.
Qed.

Lemma alert_action_tiers (price score : jsnum) :
  score <> JNaN ->
  let act := r_action (alert_recommendation price score) in
  (act = POSIBLE_EXPLOSION <-> (score >=? JNum 80)%js = true)
  /\ (act = MONITOREAR <-> (score >=? JNum 60)%js = true /\ (score <? JNum 80)%js = true)
  /\ (act = EVITAR <-> (score <? JNum 60)%js = true).
Proof.
  intros Hnan act. subst act. unfold alert_recommendation. cbn [r_action].
  rewrite !lt_is_not_ge by exact Hnan.
  destruct (score >=? JNum 80)%js eqn:H80.
  - assert (H60 : (score >=? JNum 60)%js = true)
      by (apply (ge_trans_Q score 80 60); [lra | exact H80]).
    rewrite H60. cbn [negb]. intuition congruence.
  - destruct (score >=? JNum 60)%js eqn:H60; cbn [negb]; intuition congruence.
Qed.

(** C10.  An admitted alert (its score is at least 40) gets the top action
    iff its score is at least 80, the middle one iff 60 <= score < 80 and the
    "avoid" one iff 40 <= score < 60; and there are admitted alerts whose own
    recommendation is to avoid them. *)
Theorem admitted_alert_can_say_avoid :
  (forall (t : ticker) (price volume : jsnum) (ind : indicators) (isNew : bool) (a : alert),
      alert_entry t price volume ind isNew = Some a ->
      let act := r_action (a_recommendation a) in
      (alertScore a >=? JNum 40)%js = true
      /\ (act = POSIBLE_EXPLOSION <-> (alertScore a >=? JNum 80)%js = true)
      /\ (act = MONITOREAR <->
          (alertScore a >=? JNum 60)%js = true /\ (alertScore a <? JNum 80)%js = true)
      /\ (act = EVITAR <->
          (alertScore a >=? JNum 40)%js = true /\ (alertScore a <? JNum 60)%js = true))
  /\ (exists a, alert_entry (Data.tick "NEWUSDT" 50000) (JNum 2) (JNum 50000)
                  (Data.worked false) false = Some a
                /\ alertScore a = JS.of_Z 45
                /\ r_action (a_recommendation a) = EVITAR).
Proof.
  split.
  - intros t price volume ind isNew a Ha act.
    apply alert_entry_Some in Ha. destruct Ha as (_ & _ & Hadm & Hrec).
    unfold alert_admitted in Hadm. rewrite !andb_true_iff in Hadm.
    destruct Hadm as (_ & H40). change (JNum CONFIG.MIN_ALERT_SCORE) with (JNum 40) in H40.
    pose proof (ge_true_not_nan _ _ H40) as Hnan.
    pose proof (alert_action_tiers price (alertScore a) Hnan) as (Htop & Hmid & Hlow).
    subst act. rewrite Hrec. repeat split; try tauto.
  - eexists. repeat split.
Qed.

Lemma admitted_alert_can_say_avoid_witness :
  let a := {| a_symbol := "NEWUSDT"; a_price := JNum 2;
              a_change_5m := JNum 4; a_change_1h := JNum 5; a_volume := JNum 50000;
              a_volumeRatio := JNum 2; a_rsi := JNum 55; alertScore := JS.of_Z 45;
              a_compression := false; a_volumeSpike := true;
              a_recommendation := alert_recommendation (JNum 2) (JS.of_Z 45) |} in
  r_action (a_recommendation a) = EVITAR <->
  (alertScore a >=? JNum 40)%js = true /\ (alertScore a <? JNum 60)%js = true.
Proof.
  refine (proj2 (proj2 (proj2
            (proj1 admitted_alert_can_say_avoid (Data.tick "NEWUSDT" 50000) (JNum 2)
               (JNum 50000) (Data.worked false) false _ _)))).
  reflexivity.
Defined.

(** ** The monad: what a computation does to the world *)

Lemma touched_refl (w : world) : touched w w [].
Proof. split; [symmetry; apply app_nil_r | reflexivity]. Qed.

Lemma touched_trans (w1 w2 w3 : world) (d1 d2 : list request) :
  touched w1 w2 d1 -> touched w2 w3 d2 -> touched w1 w3 (d1 ++ d2).
Proof.
  intros [L1 S1] [L2 S2]. split; [|congruence].
  rewrite L2, L1. symmetry. apply app_assoc.
Qed.

Lemma axios_get_touched {A} (ask : nat -> option A) (url : request) (w : world) :
  touched w (snd (axios_get ask url w)) [url].
Proof.
  unfold axios_get. destruct (ask _); split; reflexivity.
Qed.

(** [fetchData] sends its request at least once, and nothing else. *)
Lemma fetchData_touched {A} (ask : nat -> option A) (url : request) (retries : nat)
    (w : world) :
  exists d, touched w (snd (fetchData ask url retries w)) d
            /\ d <> [] /\ Forall (eq url) d.
Proof.
  revert w. induction retries as [|r IH]; intros w; cbn [fetchData]; unfold try_catch;
    pose proof (axios_get_touched ask url w) as Hax;
    destruct (axios_get ask url w) as [[a|] w1]; cbn [snd] in *.
  - exists [url]. repeat split; try apply Hax; [discriminate | repeat constructor].
  - exists [url]. repeat split; try apply Hax; [discriminate | repeat constructor].
  - exists [url]. repeat split; try apply Hax; [discriminate | repeat constructor].
  - destruct (IH w1) as (d & Hd & _ & Hall).
    exists ([url] ++ d). split; [eapply touched_trans; eassumption|].
    split; [discriminate | constructor; [reflexivity | exact Hall]].
Qed.

(** The shape shared by the five [calculate*] functions: fetch the klines of
    the symbol, compute, and fall back to a default when the fetch throws.
    Such a function never throws. *)
Lemma klines_indicator_ok {A} (ask : nat -> option (list candle)) (sym interval : string)
    (q : klines_query) (f : list candle -> A) (dflt : A) (w : world) :
  exists v w' d,
    try_catch
      (let* ohlcv := fetchData ask (ReqKlines sym interval q) 2 in ret (f ohlcv))
      (ret dflt) w = (Ok v, w')
    /\ touched w w' d /\ d <> [] /\ Forall (klines_of sym) d
    /\ (match fst (fetchData ask (ReqKlines sym interval q) 2 w) with
        | Ok ohlcv => v = f ohlcv
        | Throw => v = dflt
        end).
Proof.
  destruct (fetchData_touched ask (ReqKlines sym interval q) 2 w) as (d & Hd & Hne & Hall).
  unfold try_catch, bind, ret.
  destruct (fetchData ask (ReqKlines sym interval q) 2 w) as [[ohlcv|] w1]; cbn [fst snd] in *.
  - exists (f ohlcv), w1, d. repeat split; try apply Hd; try assumption.
    eapply List.Forall_impl; [|exact Hall]. intros r <-. eexists _, _. reflexivity.
  - exists dflt, w1, d. repeat split; try apply Hd; try assumption.
    eapply List.Forall_impl; [|exact Hall]. intros r <-. eexists _, _. reflexivity.
Qed.

Section Properties.

Variable sqrtQ : Q -> Q.
Variable up : upstream.

(** Computing the six indicators of a symbol never throws, sends klines
    requests for that symbol only, and sends at least one. *)
Lemma calculate_all_ok (now : Z) (sym : string) (volume : jsnum) (w : world) :
  exists ind w' d,
    calculate_all sqrtQ up now sym volume w = (Ok ind, w')
    /\ touched w w' d /\ d <> [] /\ Forall (klines_of sym) d.
Proof.
  unfold calculate_all, calculateChange, calculateRSI, calculateVolumeRatio,
    calculateCompression, calculateVolatility, fetch_klines.
  unfold bind at 1.
  destruct (klines_indicator_ok (fun n => up_klines up n sym "5m" (Limit 2)) sym "5m"
              (Limit 2) percentChange (JNum 0) w) as (v1 & w1 & d1 & -> & T1 & N1 & F1 & _).
  unfold bind at 1.
  destruct (klines_indicator_ok (fun n => up_klines up n sym "1h" (Limit 2)) sym "1h"
              (Limit 2) percentChange (JNum 0) w1) as (v2 & w2 & d2 & -> & T2 & _ & F2 & _).
  unfold bind at 1.
  destruct (klines_indicator_ok
              (fun n => up_klines up n sym "5m" (Limit (CONFIG.RSI_PERIOD + 1))) sym "5m"
              (Limit (CONFIG.RSI_PERIOD + 1)) rsi (JNum 50) w2)
    as (v3 & w3 & d3 & -> & T3 & _ & F3 & _).
  unfold bind at 1.
  match goal with
  | |- context [StartTime ?since] =>
      destruct (klines_indicator_ok (fun n => up_klines up n sym "1d" (StartTime since))
                  sym "1d" (StartTime since) (volumeRatio volume) (JNum 1) w3)
        as (v4 & w4 & d4 & -> & T4 & _ & F4 & _)
  end.
  unfold bind at 1.
  destruct (klines_indicator_ok (fun n => up_klines up n sym "5m" (Limit 20)) sym "5m"
              (Limit 20) (isCompressed sqrtQ) false w4)
    as (v5 & w5 & d5 & -> & T5 & _ & F5 & _).
  unfold bind at 1.
  destruct (klines_indicator_ok (fun n => up_klines up n sym "5m" (Limit 20)) sym "5m"
              (Limit 20) (volatility sqrtQ) (JNum 10) w5)
    as (v6 & w6 & d6 & -> & T6 & _ & F6 & _).
  eexists _, w6, (d1 ++ d2 ++ d3 ++ d4 ++ d5 ++ d6). split; [reflexivity|].
  split; [|split].
  - repeat (eapply touched_trans; [eassumption|]). assumption.
  - destruct d1; [congruence | discriminate].
  - repeat (apply Forall_app; split; [assumption|]). assumption.
Qed.

(** ** Sorting by score, descending *)

Lemma compare_not_positive (x y : jsnum) :
  x <> JNaN -> y <> JNaN -> (y - x >? JNum 0)%js = false -> (x >=? y)%js = true.
Proof.
  destruct x as [p| | |], y as [q| | |]; js_compare; try congruence; intros _ _.
  rewrite negb_false_iff, !Qle_bool_iff. intros. lra.
Qed.

Lemma compare_positive (x y : jsnum) :
  (y - x >? JNum 0)%js = true -> (y >=? x)%js = true.
Proof.
  destruct x as [p| | |], y as [q| | |]; js_compare; try congruence.
  rewrite negb_true_iff, Qle_bool_false, Qle_bool_iff. intros. lra.
Qed.

Lemma ge_trans (x y z : jsnum) :
  (x >=? y)%js = true -> (y >=? z)%js = true -> (x >=? z)%js = true.
Proof.
  destruct x as [p| | |], y as [q| | |], z as [r| | |]; js_compare; try congruence.
  rewrite !Qle_bool_iff. intros. lra.
Qed.

Lemma sort_insert_perm {A} (compare : A -> A -> jsnum) (x : A) (l : list A) :
  Permutation (sort_insert compare x l) (x :: l).
Proof.
  induction l as [|y l IH]; cbn; [reflexivity|].
  destruct (compare x y >? JNum 0)%js; [|reflexivity].
  rewrite IH. apply perm_swap.
Qed.

Lemma sort_perm {A} (compare : A -> A -> jsnum) (l : list A) :
  Permutation (sort compare l) l.
Proof.
  induction l as [|x l IH]; cbn; [reflexivity|].
  fold (sort compare l). rewrite sort_insert_perm. constructor. exact IH.
Qed.

Lemma sort_insert_HdRel {A} (score : A -> jsnum) (y x : A) (l : list A) :
  desc score y x -> HdRel (desc score) y l ->
  HdRel (desc score) y (sort_insert (by_score_desc score) x l).
Proof.
  intros Hyx Hyl. destruct l as [|z l]; cbn; [constructor; exact Hyx|].
  destruct (by_score_desc score x z >? JNum 0)%js.
  - constructor. inversion Hyl. assumption.
  - constructor. exact Hyx.
Qed.

Lemma sort_insert_sorted {A} (score : A -> jsnum) (x : A) (l : list A) :
  score x <> JNaN -> Forall (fun a => score a <> JNaN) l ->
  Sorted (desc score) l -> Sorted (desc score) (sort_insert (by_score_desc score) x l).
Proof.
  intros Hx Hl Hs. induction Hs as [|y l Hs IH Hd]; cbn.
  - repeat constructor.
  - inversion Hl as [|? ? Hy Hl']; subst.
    destruct (by_score_desc score x y >? JNum 0)%js eqn:Hc.
    + constructor; [apply IH; exact Hl'|].
      apply sort_insert_HdRel; [|exact Hd].
      apply compare_positive. exact Hc.
    + constructor; [constructor; assumption|].
      constructor. apply compare_not_positive; assumption.
Qed.

Lemma sort_sorted {A} (score : A -> jsnum) (l : list A) :
  Forall (fun a => score a <> JNaN) l -> Sorted (desc score) (sort (by_score_desc score) l).
Proof.
  induction 1 as [|x l Hx Hl IH]; cbn; [constructor|].
  fold (sort (by_score_desc score) l). apply sort_insert_sorted; try assumption.
  eapply Permutation_Forall; [|exact Hl]. symmetry. apply sort_perm.
Qed.

Lemma Sorted_firstn {A} (R : A -> A -> Prop) (n : nat) (l : list A) :
  Sorted R l -> Sorted R (firstn n l).
Proof.
  intros Hs. revert n. induction Hs as [|x l Hs IH Hd]; intros [|n]; cbn; try constructor.
  - apply IH.
  - destruct Hd; destruct n; cbn; constructor; assumption.
Qed.

Lemma desc_transitive {A} (score : A -> jsnum) : Relations_1.Transitive (desc score).
Proof. intros a b c. unfold desc. apply ge_trans. Qed.

Lemma clamp_length_firstn {A} (l : list A) :
  clamp_length (firstn CONFIG.TOP_RESULTS l) = firstn CONFIG.TOP_RESULTS l.
Proof.
  unfold clamp_length.
  destruct (Nat.ltb_spec CONFIG.TOP_RESULTS (length (firstn CONFIG.TOP_RESULTS l))) as [H|H];
    [|reflexivity].
  pose proof (firstn_le_length CONFIG.TOP_RESULTS l). lia.
Qed.

Lemma ranked_bounded_sorted {A} (score : A -> jsnum) (top : list A) :
  ranked score top ->
  (length top <= CONFIG.TOP_RESULTS)%nat /\ StronglySorted (desc score) top.
Proof.
  intros (all & Hall & ->). split; [apply firstn_le_length|].
  apply Sorted_StronglySorted; [apply desc_transitive|].
  apply Sorted_firstn, sort_sorted, Hall.
Qed.

(** ** What the pipelines put in their results *)

Lemma skip_is_not_eligible (s : string) :
  negb (endsWith s "USDT") || popular s = negb (eligible s).
Proof. unfold eligible. destruct (endsWith s "USDT"), (popular s); reflexivity. Qed.

Lemma candidate_ok_score (c : candidate) : candidate_ok c -> explosionScore c <> JNaN.
Proof.
  intros (_ & Hadm & _). apply explosion_admitted_spec in Hadm.
  destruct Hadm as (_ & _ & _ & _ & _ & H). eapply ge_true_not_nan, H.
Qed.

Lemma alert_ok_score (a : alert) : alert_ok a -> alertScore a <> JNaN.
Proof.
  intros (_ & Hadm & _). unfold alert_admitted in Hadm. rewrite !andb_true_iff in Hadm.
  destruct Hadm as (_ & H). eapply ge_true_not_nan, H.
Qed.

Lemma explosion_entry_ok (t : ticker) (price volume : jsnum) (ind : indicators)
    (new : bool) (c : candidate) :
  eligible (t_symbol t) = true ->
  explosion_entry t price volume ind new = Some c -> candidate_ok c.
Proof.
  intros He Hc. apply explosion_entry_Some in Hc.
  destruct Hc as (Hs & H5 & H1 & Hr & Hv & Hn & Hscore & Hadm).
  unfold candidate_ok. rewrite Hs, H5, H1, Hr, Hv, Hn.
  split; [exact He|]. split; [exact Hadm|]. eexists. exact Hscore.
Qed.

Lemma alert_entry_ok (t : ticker) (price volume : jsnum) (ind : indicators)
    (new : bool) (a : alert) :
  eligible (t_symbol t) = true ->
  alert_entry t price volume ind new = Some a -> alert_ok a.
Proof.
  unfold alert_entry. intros He.
  destruct (alert_admitted _ _ _ _) eqn:Hadm; [|discriminate].
  intros [= <-]. unfold alert_ok. cbn.
  split; [exact He|]. split; [exact Hadm|]. split; [reflexivity|]. eexists. reflexivity.
Qed.

(** The requests of one symbol's indicators name that symbol and no other. *)
Lemma Exists_klines_of (s sym : string) (d : list request) :
  d <> [] -> Forall (klines_of sym) d -> (Exists (klines_of s) d <-> s = sym).
Proof.
  intros Hne Hall. split.
  - intros Hex. apply List.Exists_exists in Hex. destruct Hex as (r & Hin & i & q & ->).
    rewrite List.Forall_forall in Hall. destruct (Hall _ Hin) as (i' & q' & [= -> _ _]).
    reflexivity.
  - intros ->. destruct d as [|r d]; [congruence|].
    constructor. inversion Hall. assumption.
Qed.

Lemma getNewListings_ok (now : Z) (w : world) :
  exists newListings w' d,
    getNewListings up now w = (Ok newListings, w')
    /\ touched w w' d /\ Forall (eq ReqExchangeInfo) d.
Proof.
  unfold getNewListings. cbv [try_catch bind get_world].
  destruct (cache_get now (longCache w) "newListings") as [cached|].
  - exists cached, w, []. split; [reflexivity|]. split; [apply touched_refl | constructor].
  - destruct (fetchData_touched (up_exchangeInfo up) ReqExchangeInfo 2 w) as (d & Hd & _ & Hall).
    destruct (fetchData (up_exchangeInfo up) ReqExchangeInfo 2 w) as [[listings|] w1];
      cbn [snd] in Hd; cbv [set_longCache ret].
    + eexists _, _, d. split; [reflexivity|]. split; [exact Hd | exact Hall].
    + eexists _, _, d. split; [reflexivity|]. split; [exact Hd | exact Hall].
Qed.

Lemma explosion_scan_ok (now : Z) (newListings : list string) (ts : list ticker)
    (acc : list candidate) (w : world) :
  exists fresh w' d,
    explosion_scan sqrtQ up now newListings ts acc w = (Ok (acc ++ fresh), w')
    /\ touched w w' d /\ Forall candidate_ok fresh
    /\ (forall s, Exists (klines_of s) d <-> In s (map t_symbol (List.filter explosion_pool ts))).
Proof.
  revert acc w. induction ts as [|t rest IH]; intros acc w; cbn [explosion_scan].
  - exists [], w, []. rewrite app_nil_r. split; [reflexivity|].
    split; [apply touched_refl|]. split; [constructor|].
    intros s. cbn. rewrite List.Exists_nil. reflexivity.
  - rewrite skip_is_not_eligible. cbn [List.filter]. unfold explosion_pool at 1.
    destruct (eligible (t_symbol t)) eqn:He; cbn [negb andb]; [|apply IH].
    destruct (JNum (baseVolume t) <? JNum CONFIG.MIN_VOLUME_EXPLOSION)%js; cbn [negb];
      [apply IH|].
    unfold bind.
    destruct (calculate_all_ok now (t_symbol t) (JNum (baseVolume t)) w)
      as (ind & w1 & d1 & -> & T1 & N1 & F1).
    destruct (explosion_entry t (JNum (lastPrice t)) (JNum (baseVolume t)) ind
                (includes newListings (t_symbol t))) as [c|] eqn:Hc; cbn [push].
    + destruct (IH (acc ++ [c]) w1) as (fresh & w' & d & -> & T & Hok & Hd).
      exists (c :: fresh), w', (d1 ++ d). rewrite <- app_assoc. split; [reflexivity|].
      split; [eapply touched_trans; eassumption|].
      split; [constructor; [eapply explosion_entry_ok; eassumption | exact Hok]|].
      intros s. rewrite List.Exists_app, Hd, (Exists_klines_of s _ d1 N1 F1). cbn.
      split; intros [H|H]; auto.
    + destruct (IH acc w1) as (fresh & w' & d & -> & T & Hok & Hd).
      exists fresh, w', (d1 ++ d). split; [reflexivity|].
      split; [eapply touched_trans; eassumption|]. split; [exact Hok|].
      intros s. rewrite List.Exists_app, Hd, (Exists_klines_of s _ d1 N1 F1). cbn.
      split; intros [H|H]; auto.
Qed.

Lemma alert_scan_ok (now : Z) (newListings : list string) (ts : list ticker)
    (acc : list alert) (w : world) :
  exists fresh w' d,
    alert_scan sqrtQ up now newListings ts acc w = (Ok (acc ++ fresh), w')
    /\ touched w w' d /\ Forall alert_ok fresh
    /\ (forall s, Exists (klines_of s) d <-> In s (map t_symbol (List.filter alert_pool ts))).
Proof.
  revert acc w. induction ts as [|t rest IH]; intros acc w; cbn [alert_scan].
  - exists [], w, []. rewrite app_nil_r. split; [reflexivity|].
    split; [apply touched_refl|]. split; [constructor|].
    intros s. cbn. rewrite List.Exists_nil. reflexivity.
  - rewrite skip_is_not_eligible. cbn [List.filter]. unfold alert_pool at 1.
    destruct (eligible (t_symbol t)) eqn:He; cbn [negb andb]; [|apply IH].
    destruct (JNum (baseVolume t) <? JNum CONFIG.MIN_VOLUME_REGULAR)%js; cbn [negb];
      [apply IH|].
    unfold bind.
    destruct (calculate_all_ok now (t_symbol t) (JNum (baseVolume t)) w)
      as (ind & w1 & d1 & -> & T1 & N1 & F1).
    destruct (alert_entry t (JNum (lastPrice t)) (JNum (baseVolume t)) ind
                (includes newListings (t_symbol t))) as [a|] eqn:Ha; cbn [push].
    + destruct (IH (acc ++ [a]) w1) as (fresh & w' & d & -> & T & Hok & Hd).
      exists (a :: fresh), w', (d1 ++ d). rewrite <- app_assoc. split; [reflexivity|].
      split; [eapply touched_trans; eassumption|].
      split; [constructor; [eapply alert_entry_ok; eassumption | exact Hok]|].
      intros s. rewrite List.Exists_app, Hd, (Exists_klines_of s _ d1 N1 F1). cbn.
      split; intros [H|H]; auto.
    + destruct (IH acc w1) as (fresh & w' & d & -> & T & Hok & Hd).
      exists fresh, w', (d1 ++ d). split; [reflexivity|].
      split; [eapply touched_trans; eassumption|]. split; [exact Hok|].
      intros s. rewrite List.Exists_app, Hd, (Exists_klines_of s _ d1 N1 F1). cbn.
      split; intros [H|H]; auto.
Qed.

(** ** The two pipelines, run on a cache miss *)

Ltac run_handler :=
  cbv [try_catch bind get_world settle await ret throw set_shortCache].

Lemma explosion_candidates_miss (now : Z) (w : world) :
  cache_get now (shortCache w) "explosionCandidates" = None ->
  match fetchData (up_ticker24hr up) ReqTicker24hr 2 w with
  | (Throw, _) =>
      exists w', explosion_candidates sqrtQ up now w
                 = (Ok (Status500 "Internal server error"), w')
                 /\ shortCache w' = shortCache w
  | (Ok tickerData, w1) =>
      exists candidates w' dl d,
        let top :=
          firstn CONFIG.TOP_RESULTS (sort (by_score_desc explosionScore) candidates) in
        explosion_candidates sqrtQ up now w = (Ok (Json (PCandidates top)), w')
        /\ Forall candidate_ok candidates
        /\ w_log w' = w_log w1 ++ dl ++ d
        /\ Forall (eq ReqExchangeInfo) dl
        /\ (forall s, Exists (klines_of s) d <->
                      In s (map t_symbol
                              (List.filter explosion_pool
                                 (firstn CONFIG.MAX_CANDIDATES tickerData))))
        /\ shortCache w'
           = cache_set now CONFIG.CACHE_SHORT_TTL (shortCache w) "explosionCandidates"
               (PCandidates top)
  end.
Proof.
  intros Hmiss. unfold explosion_candidates. run_handler. rewrite Hmiss.
  destruct (fetchData_touched (up_ticker24hr up) ReqTicker24hr 2 w) as (d0 & T0 & _).
  destruct (fetchData (up_ticker24hr up) ReqTicker24hr 2 w) as [[tickerData|] w1];
    cbn [snd] in T0;
    destruct (getNewListings_ok now w1) as (newListings & w2 & dl & -> & Tl & Fl).
  - destruct (explosion_scan_ok now newListings (firstn CONFIG.MAX_CANDIDATES tickerData) [] w2)
      as (candidates & w3 & d & -> & Ts & Hok & Hd).
    cbn [app]. rewrite clamp_length_firstn.
    eexists candidates, _, dl, d. cbn zeta. split; [reflexivity|]. cbn [w_log shortCache].
    split; [exact Hok|]. split; [|split; [exact Fl|split; [exact Hd|]]].
    + destruct Tl as [L1 _], Ts as [L2 _]. rewrite L2, L1. symmetry. apply app_assoc.
    + destruct T0 as [_ S0], Tl as [_ S1], Ts as [_ S2]. rewrite S2, S1, S0. reflexivity.
  - eexists. split; [reflexivity|].
    destruct T0 as [_ S0], Tl as [_ S1]. rewrite S1, S0. reflexivity.
Qed.

Lemma pre_explosion_signals_miss (now : Z) (w : world) :
  cache_get now (shortCache w) "preExplosionSignals" = None ->
  match fetchData (up_ticker24hr up) ReqTicker24hr 2 w with
  | (Throw, _) =>
      exists w', pre_explosion_signals sqrtQ up now w
                 = (Ok (Status500 "Internal server error"), w')
                 /\ shortCache w' = shortCache w
  | (Ok tickerData, w1) =>
      exists alerts w' dl d,
        let top := firstn CONFIG.TOP_RESULTS (sort (by_score_desc alertScore) alerts) in
        pre_explosion_signals sqrtQ up now w = (Ok (Json (PAlerts top)), w')
        /\ Forall alert_ok alerts
        /\ w_log w' = w_log w1 ++ dl ++ d
        /\ Forall (eq ReqExchangeInfo) dl
        /\ (forall s, Exists (klines_of s) d <->
                      In s (map t_symbol
                              (List.filter alert_pool
                                 (firstn CONFIG.MAX_CANDIDATES tickerData))))
        /\ shortCache w'
           = cache_set now CONFIG.CACHE_SHORT_TTL (shortCache w) "preExplosionSignals"
               (PAlerts top)
  end.
Proof.
  intros Hmiss. unfold pre_explosion_signals. run_handler. rewrite Hmiss.
  destruct (fetchData_touched (up_ticker24hr up) ReqTicker24hr 2 w) as (d0 & T0 & _).
  destruct (fetchData (up_ticker24hr up) ReqTicker24hr 2 w) as [[tickerData|] w1];
    cbn [snd] in T0;
    destruct (getNewListings_ok now w1) as (newListings & w2 & dl & -> & Tl & Fl).
  - destruct (alert_scan_ok now newListings (firstn CONFIG.MAX_CANDIDATES tickerData) [] w2)
      as (alerts & w3 & d & -> & Ts & Hok & Hd).
    cbn [app]. rewrite clamp_length_firstn.
    eexists alerts, _, dl, d. cbn zeta. split; [reflexivity|]. cbn [w_log shortCache].
    split; [exact Hok|]. split; [|split; [exact Fl|split; [exact Hd|]]].
    + destruct Tl as [L1 _], Ts as [L2 _]. rewrite L2, L1. symmetry. apply app_assoc.
    + destruct T0 as [_ S0], Tl as [_ S1], Ts as [_ S2]. rewrite S2, S1, S0. reflexivity.
  - eexists. split; [reflexivity|].
    destruct T0 as [_ S0], Tl as [_ S1]. rewrite S1, S0. reflexivity.
Qed.

(** ** The short-lived store *)

Lemma cache_get_Some {V} (now : Z) (c : gmap string (V * Z)) (key : string) (v : V) :
  cache_get now c key = Some v <-> exists t, c !! key = Some (v, t) /\ (now <= t)%Z.
Proof.
  unfold cache_get. destruct (c !! key) as [[v' t]|].
  - destruct (Z.ltb_spec t now); split.
    + discriminate.
    + intros (t' & [= -> ->] & Hle). lia.
    + intros [= ->]. eauto.
    + intros (t' & [= -> ->] & _). reflexivity.
  - split; [discriminate | intros (t & H & _); discriminate].
Qed.

(** A value lives in a store for the whole TTL after it was set. *)
Lemma cache_get_set {V} (now ttl later : Z) (c : gmap string (V * Z)) (key : string) (v : V) :
  (later <= now + ttl * 1000)%Z -> cache_get later (cache_set now ttl c key v) key = Some v.
Proof.
  intros Hle. apply cache_get_Some. exists (now + ttl * 1000)%Z.
  split; [apply lookup_insert_eq | exact Hle].
Qed.

Lemma explosion_candidates_hit (now : Z) (w : world) (v : payload) :
  cache_get now (shortCache w) "explosionCandidates" = Some v ->
  explosion_candidates sqrtQ up now w = (Ok (Json v), w).
Proof. intros Hhit. unfold explosion_candidates. run_handler. rewrite Hhit. reflexivity. Qed.

Lemma pre_explosion_signals_hit (now : Z) (w : world) (v : payload) :
  cache_get now (shortCache w) "preExplosionSignals" = Some v ->
  pre_explosion_signals sqrtQ up now w = (Ok (Json v), w).
Proof. intros Hhit. unfold pre_explosion_signals. run_handler. rewrite Hhit. reflexivity. Qed.

(** ** The invariant of the store is kept by every route *)

Lemma Forall_sorted_top {A} (P : A -> Prop) (score : A -> jsnum) (all : list A) :
  Forall P all -> Forall P (firstn CONFIG.TOP_RESULTS (sort (by_score_desc score) all)).
Proof.
  intros H. apply Forall_take.
  eapply Permutation_Forall; [symmetry; apply sort_perm | exact H].
Qed.

Lemma candidates_payload_ok (candidates : list candidate) :
  Forall candidate_ok candidates ->
  payload_ok (PCandidates
                (firstn CONFIG.TOP_RESULTS (sort (by_score_desc explosionScore) candidates))).
Proof.
  intros Hok. split; [apply Forall_sorted_top, Hok|].
  exists candidates. split; [|reflexivity].
  eapply List.Forall_impl; [|exact Hok]. apply candidate_ok_score.
Qed.

Lemma alerts_payload_ok (alerts : list alert) :
  Forall alert_ok alerts ->
  payload_ok (PAlerts (firstn CONFIG.TOP_RESULTS (sort (by_score_desc alertScore) alerts))).
Proof.
  intros Hok. split; [apply Forall_sorted_top, Hok|].
  exists alerts. split; [|reflexivity].
  eapply List.Forall_impl; [|exact Hok]. apply alert_ok_score.
Qed.

Lemma world_ok_set (w w' : world) (now ttl : Z) (key : string) (p : payload) :
  world_ok w -> payload_ok p -> kind_ok key p ->
  shortCache w' = cache_set now ttl (shortCache w) key p -> world_ok w'.
Proof.
  intros Hw Hp Hk Hs key' p' t'. rewrite Hs. unfold cache_set.
  destruct (decide (key = key')) as [<-|Hne].
  - rewrite lookup_insert_eq. intros [= <- _]. split; assumption.
  - rewrite lookup_insert_ne by exact Hne. apply Hw.
Qed.

Lemma world_ok_same (w w' : world) :
  world_ok w -> shortCache w' = shortCache w -> world_ok w'.
Proof. intros Hw Hs key p t. rewrite Hs. apply Hw. Qed.

Lemma explosion_candidates_ok (now : Z) (w : world) :
  world_ok w ->
  exists resp w', explosion_candidates sqrtQ up now w = (Ok resp, w')
                  /\ world_ok w' /\ response_ok "explosionCandidates" resp.
Proof.
  intros Hw. destruct (cache_get now (shortCache w) "explosionCandidates") as [v|] eqn:Hget.
  - exists (Json v), w. split; [apply explosion_candidates_hit, Hget|]. split; [exact Hw|].
    apply cache_get_Some in Hget. destruct Hget as (t & Hl & _). exact (Hw _ _ _ Hl).
  - pose proof (explosion_candidates_miss now w Hget) as Hm.
    destruct (fetchData (up_ticker24hr up) ReqTicker24hr 2 w) as [[tickerData|] w1].
    + destruct Hm as (candidates & w' & dl & d & Hrun & Hok & _ & _ & _ & Hs).
      eexists _, w'. split; [exact Hrun|].
      pose proof (candidates_payload_ok candidates Hok) as Hp.
      split; [eapply world_ok_set; try eassumption; reflexivity | split; [exact Hp | reflexivity]].
    + destruct Hm as (w' & Hrun & Hs). eexists _, w'. split; [exact Hrun|].
      split; [eapply world_ok_same; eassumption | exact I].
Qed.

Lemma pre_explosion_signals_ok (now : Z) (w : world) :
  world_ok w ->
  exists resp w', pre_explosion_signals sqrtQ up now w = (Ok resp, w')
                  /\ world_ok w' /\ response_ok "preExplosionSignals" resp.
Proof.
  intros Hw. destruct (cache_get now (shortCache w) "preExplosionSignals") as [v|] eqn:Hget.
  - exists (Json v), w. split; [apply pre_explosion_signals_hit, Hget|]. split; [exact Hw|].
    apply cache_get_Some in Hget. destruct Hget as (t & Hl & _). exact (Hw _ _ _ Hl).
  - pose proof (pre_explosion_signals_miss now w Hget) as Hm.
    destruct (fetchData (up_ticker24hr up) ReqTicker24hr 2 w) as [[tickerData|] w1].
    + destruct Hm as (alerts & w' & dl & d & Hrun & Hok & _ & _ & _ & Hs).
      eexists _, w'. split; [exact Hrun|].
      pose proof (alerts_payload_ok alerts Hok) as Hp.
      split; [eapply world_ok_set; try eassumption; reflexivity | split; [exact Hp | reflexivity]].
    + destruct Hm as (w' & Hrun & Hs). eexists _, w'. split; [exact Hrun|].
      split; [eapply world_ok_same; eassumption | exact I].
Qed.

(** The analysis route: one result for the requested symbol whenever its
    ticker can be fetched, an error otherwise; the stores are left alone. *)
Lemma analysis_symbol_ok (now : Z) (param : string) (w : world) :
  exists resp w',
    analysis_symbol sqrtQ up now param w = (Ok resp, w')
    /\ shortCache w' = shortCache w
    /\ match fst (fetchData (fun n => up_ticker up n (toUpperCase param))
                    (ReqTicker (toUpperCase param)) 2 w) with
       | Ok data =>
           exists a, resp = Json (PAnalysis a)
                     /\ an_symbol a = toUpperCase param
                     /\ an_price a = JNum (lastPrice data)
                     /\ (exists compressed,
                            an_explosionScore a
                            = analysisScore_of (an_change_5m a) (an_change_1h a) (an_rsi a)
                                (an_volumeRatio a) compressed)
                     /\ an_recommendation a
                        = explosion_recommendation (an_price a) (an_explosionScore a)
       | Throw => resp = Status500 "Error in individual analysis"
       end.
Proof.
  unfold analysis_symbol. run_handler.
  destruct (fetchData_touched (fun n => up_ticker up n (toUpperCase param))
              (ReqTicker (toUpperCase param)) 2 w) as (d0 & T0 & _).
  destruct (fetchData (fun n => up_ticker up n (toUpperCase param))
              (ReqTicker (toUpperCase param)) 2 w) as [[data|] w1]; cbn [fst snd] in *.
  - destruct (calculate_all_ok now (toUpperCase param) (JNum (baseVolume data)) w1)
      as (ind & w2 & d & -> & T & _).
    eexists _, w2. split; [reflexivity|].
    split; [destruct T0 as [_ S0], T as [_ S1]; rewrite S1, S0; reflexivity|].
    eexists. split; [reflexivity|]. cbn. repeat split. eexists. reflexivity.
  - eexists _, w1. split; [reflexivity|]. split; [apply T0 | reflexivity].
Qed.

Lemma reachable_world_ok (w : world) : reachable sqrtQ up w -> world_ok w.
Proof.
  induction 1 as [|now w _ IH|now w _ IH|now param w _ IH].
  - intros key p t. cbn. rewrite lookup_empty. discriminate.
  - destruct (explosion_candidates_ok now w IH) as (resp & w' & -> & Hw & _). exact Hw.
  - destruct (pre_explosion_signals_ok now w IH) as (resp & w' & -> & Hw & _). exact Hw.
  - destruct (analysis_symbol_ok now param w) as (resp & w' & -> & Hs & _).
    eapply world_ok_same; eassumption.
Qed.

Lemma eligible_spec (s : string) :
  eligible s = true <-> endsWith s "USDT" = true /\ s ∉ POPULAR_TOKENS.
Proof.
  unfold eligible, popular. rewrite andb_true_iff, negb_true_iff, bool_decide_eq_false.
  reflexivity.
Qed.

(** What a route of a scenario answers in a reachable world. *)
Lemma explosion_candidates_reachable (now : Z) (w : world) :
  reachable sqrtQ up w ->
  exists resp w',
    explosion_candidates sqrtQ up now w = (Ok resp, w')
    /\ (resp = Status500 "Internal server error"
        \/ exists l, resp = Json (PCandidates l)
                     /\ Forall candidate_ok l /\ ranked explosionScore l).
Proof.
  intros Hr. apply reachable_world_ok in Hr.
  destruct (explosion_candidates_ok now w Hr) as (resp & w' & Hrun & _ & Hresp).
  exists resp, w'. split; [exact Hrun|].
  destruct (cache_get now (shortCache w) "explosionCandidates") as [v|] eqn:Hget.
  - rewrite (explosion_candidates_hit now w v Hget) in Hrun. injection Hrun as <- _.
    destruct Hresp as [Hp Hk]. destruct v as [l|l|a]; cbn in Hk; try discriminate; [|tauto].
    right. exists l. split; [reflexivity | exact Hp].
  - pose proof (explosion_candidates_miss now w Hget) as Hm.
    destruct (fetchData (up_ticker24hr up) ReqTicker24hr 2 w) as [[tickerData|] w1].
    + destruct Hm as (candidates & w'' & dl & d & Hrun' & Hok & _).
      rewrite Hrun' in Hrun. injection Hrun as <- _.
      right. eexists. split; [reflexivity|]. apply candidates_payload_ok, Hok.
    + destruct Hm as (w'' & Hrun' & _). rewrite Hrun' in Hrun. injection Hrun as <- _.
      left. reflexivity.
Qed.

Lemma pre_explosion_signals_reachable (now : Z) (w : world) :
  reachable sqrtQ up w ->
  exists resp w',
    pre_explosion_signals sqrtQ up now w = (Ok resp, w')
    /\ (resp = Status500 "Internal server error"
        \/ exists l, resp = Json (PAlerts l) /\ Forall alert_ok l /\ ranked alertScore l).
Proof.
  intros Hr. apply reachable_world_ok in Hr.
  destruct (pre_explosion_signals_ok now w Hr) as (resp & w' & Hrun & _ & Hresp).
  exists resp, w'. split; [exact Hrun|].
  destruct (cache_get now (shortCache w) "preExplosionSignals") as [v|] eqn:Hget.
  - rewrite (pre_explosion_signals_hit now w v Hget) in Hrun. injection Hrun as <- _.
    destruct Hresp as [Hp Hk]. destruct v as [l|l|a]; cbn in Hk; try discriminate; [|tauto].
    right. exists l. split; [reflexivity | exact Hp].
  - pose proof (pre_explosion_signals_miss now w Hget) as Hm.
    destruct (fetchData (up_ticker24hr up) ReqTicker24hr 2 w) as [[tickerData|] w1].
    + destruct Hm as (alerts & w'' & dl & d & Hrun' & Hok & _).
      rewrite Hrun' in Hrun. injection Hrun as <- _.
      right. eexists. split; [reflexivity|]. apply alerts_payload_ok, Hok.
    + destruct Hm as (w'' & Hrun' & _). rewrite Hrun' in Hrun. injection Hrun as <- _.
      left. reflexivity.
Qed.


(** C7.  Whatever the upstream delivers, every candidate that
    [/api/explosion-candidates] or [/api/pre-explosion-signals] returns has a
    symbol that ends with USDT and is not in [POPULAR_TOKENS]. *)
Theorem results_exclude_popular_tokens (now : Z) (w : world) :
  reachable sqrtQ up w ->
  (exists resp w',
      explosion_candidates sqrtQ up now w = (Ok resp, w')
      /\ (resp = Status500 "Internal server error"
          \/ exists l, resp = Json (PCandidates l)
                       /\ Forall (fun c => endsWith (symbol c) "USDT" = true
                                           /\ symbol c ∉ POPULAR_TOKENS) l))
  /\ (exists resp w',
         pre_explosion_signals sqrtQ up now w = (Ok resp, w')
         /\ (resp = Status500 "Internal server error"
             \/ exists l, resp = Json (PAlerts l)
                          /\ Forall (fun a => endsWith (a_symbol a) "USDT" = true
                                              /\ a_symbol a ∉ POPULAR_TOKENS) l)).
Proof.
  intros Hr. split.
  - destruct (explosion_candidates_reachable now w Hr) as (resp & w' & Hrun & [->|Hl]).
    + exists (Status500 "Internal server error"), w'. split; [exact Hrun | left; reflexivity].
    + destruct Hl as (l & -> & Hok & _).
      exists (Json (PCandidates l)), w'. split; [exact Hrun|]. right.
      exists l. split; [reflexivity|].
      eapply List.Forall_impl; [|exact Hok]. intros c (He & _). apply eligible_spec, He.
  - destruct (pre_explosion_signals_reachable now w Hr) as (resp & w' & Hrun & [->|Hl]).
    + exists (Status500 "Internal server error"), w'. split; [exact Hrun | left; reflexivity].
    + destruct Hl as (l & -> & Hok & _).
      exists (Json (PAlerts l)), w'. split; [exact Hrun|]. right.
      exists l. split; [reflexivity|].
      eapply List.Forall_impl; [|exact Hok]. intros a (He & _). apply eligible_spec, He.
Qed.

Lemma not_klines_exchangeInfo (s : string) (dl d : list request) :
  Forall (eq ReqExchangeInfo) dl ->
  (Exists (klines_of s) (dl ++ d) <-> Exists (klines_of s) d).
Proof.
  intros Hdl. rewrite List.Exists_app. split; [|auto].
  intros [H|H]; [|exact H]. exfalso.
  apply List.Exists_exists in H. destruct H as (r & Hin & i & q & ->).
  rewrite List.Forall_forall in Hdl. specialize (Hdl _ Hin). discriminate.
Qed.

(** C8 (as amended: the snapshot is cut to its first [MAX_CANDIDATES] = 50
    tickers first, and the cut is filtered afterwards).  On a run that finds
    no live cached result and gets the ticker snapshot, the symbols whose
    klines are requested are exactly those among the first 50 tickers of the
    snapshot that end with USDT, are not in [POPULAR_TOKENS] and reach the
    volume floor of the scenario. *)
Theorem candidate_pool_is_filtered_prefix (now : Z) (w w1 : world) (tickerData : list ticker) :
  fetchData (up_ticker24hr up) ReqTicker24hr 2 w = (Ok tickerData, w1) ->
  (cache_get now (shortCache w) "explosionCandidates" = None ->
   exists d,
     w_log (snd (explosion_candidates sqrtQ up now w)) = w_log w1 ++ d
     /\ forall s,
          Exists (klines_of s) d <->
          In s (map t_symbol
                  (List.filter
                     (fun t => eligible (t_symbol t)
                               && negb (JNum (baseVolume t) <? JNum 30000)%js)
                     (firstn 50 tickerData))))
  /\ (cache_get now (shortCache w) "preExplosionSignals" = None ->
      exists d,
        w_log (snd (pre_explosion_signals sqrtQ up now w)) = w_log w1 ++ d
        /\ forall s,
             Exists (klines_of s) d <->
             In s (map t_symbol
                     (List.filter
                        (fun t => eligible (t_symbol t)
                                  && negb (JNum (baseVolume t) <? JNum 20000)%js)
                        (firstn 50 tickerData)))).
Proof.
  intros Hfetch. split; intros Hmiss.
  - pose proof (explosion_candidates_miss now w Hmiss) as Hm. rewrite Hfetch in Hm.
    destruct Hm as (candidates & w' & dl & d & Hrun & _ & Hlog & Hdl & Hd & _).
    cbv zeta in Hrun. rewrite Hrun. cbn [snd]. exists (dl ++ d). split; [exact Hlog|].
    intros s. rewrite (not_klines_exchangeInfo s dl d Hdl). apply Hd.
  - pose proof (pre_explosion_signals_miss now w Hmiss) as Hm. rewrite Hfetch in Hm.
    destruct Hm as (alerts & w' & dl & d & Hrun & _ & Hlog & Hdl & Hd & _).
    cbv zeta in Hrun. rewrite Hrun. cbn [snd]. exists (dl ++ d). split; [exact Hlog|].
    intros s. rewrite (not_klines_exchangeInfo s dl d Hdl). apply Hd.
Qed.

(** C9.  When the short-lived store holds a result under the key of a
    scenario and that entry has not expired, the route of the scenario answers
    with exactly that result and leaves the world as it was: nothing is added
    to the log of upstream requests and no store is written. *)
Theorem cache_hit_short_circuits (now : Z) (w : world) (v : payload) (t : Z) :
  (shortCache w !! "explosionCandidates" = Some (v, t) -> (now <= t)%Z ->
   explosion_candidates sqrtQ up now w = (Ok (Json v), w)
   /\ w_log (snd (explosion_candidates sqrtQ up now w)) = w_log w)
  /\ (shortCache w !! "preExplosionSignals" = Some (v, t) -> (now <= t)%Z ->
      pre_explosion_signals sqrtQ up now w = (Ok (Json v), w)
      /\ w_log (snd (pre_explosion_signals sqrtQ up now w)) = w_log w).
Proof.
  split; intros Hl Hle.
  - assert (Hget : cache_get now (shortCache w) "explosionCandidates" = Some v)
      by (apply cache_get_Some; eauto).
    rewrite (explosion_candidates_hit now w v Hget). split; reflexivity.
  - assert (Hget : cache_get now (shortCache w) "preExplosionSignals" = Some v)
      by (apply cache_get_Some; eauto).
    rewrite (pre_explosion_signals_hit now w v Hget). split; reflexivity.
Qed.


End Properties.

(** ** IndicatorEngine *)

Lemma fold_add_finite (l : list Q) (a : Q) :
  fold_left JS.add (map JNum l) (JNum a) = JNum (fold_left Qplus l a).
Proof.
  revert a. induction l as [|x l IH]; intros a; cbn [map fold_left]; [reflexivity|].
  change (JNum a + JNum x)%js with (JNum (a + x)). apply IH.
Qed.

Lemma sum_js_finite (l : list Q) : sum_js (map JNum l) = JNum (Spec.sum l).
Proof. apply fold_add_finite. Qed.

Lemma fold_left_plus_map {A} (f : A -> jsnum) (l : list A) (a : jsnum) :
  fold_left (fun sum x => sum + f x)%js l a = fold_left JS.add (map f l) a.
Proof.
  revert a. induction l as [|x l IH]; intros a; cbn [map fold_left]; [reflexivity|]. apply IH.
Qed.

Lemma fold_plus_nonneg (l : list Q) (a : Q) :
  Forall (fun x => 0 <= x) l -> a <= fold_left Qplus l a.
Proof.
  intros H. revert a. induction H as [|x l Hx _ IH]; intros a; cbn [fold_left]; [lra|].
  specialize (IH (a + x)). lra.
Qed.

Lemma fold_plus_zero (l : list Q) (a : Q) :
  Forall (fun x => x == 0) l -> fold_left Qplus l a == a.
Proof.
  intros H. revert a. induction H as [|x l Hx _ IH]; intros a; cbn [fold_left]; [reflexivity|].
  rewrite IH, Hx. ring.
Qed.

Lemma gain_nonneg (d : Q) : 0 <= Spec.gain d.
Proof.
  unfold Spec.gain. destruct (Qle_bool d 0) eqn:H; [lra|].
  apply Qle_bool_false in H. lra.
Qed.

Lemma loss_nonneg (d : Q) : 0 <= Spec.loss d.
Proof.
  unfold Spec.loss. destruct (Qle_bool 0 d) eqn:H; [lra|].
  apply Qle_bool_false in H. lra.
Qed.

Lemma sum_map_nonneg (f : Q -> Q) (l : list Q) :
  (forall d, 0 <= f d) -> 0 <= Spec.sum (map f l).
Proof.
  intros Hf. apply fold_plus_nonneg. apply List.Forall_forall.
  intros x Hin. apply in_map_iff in Hin. destruct Hin as (d & <- & _). apply Hf.
Qed.

Lemma map_consecutive_cons {A} (f : jsnum -> jsnum -> A) (a b : jsnum) (l : list jsnum) :
  map_consecutive f (a :: b :: l) = f b a :: map_consecutive f (b :: l).
Proof. reflexivity. Qed.

Lemma changes_finite (closes : list Q) :
  map_consecutive (fun close prev => close - prev)%js (map JNum closes)
  = map JNum (Spec.deltas closes).
Proof.
  induction closes as [|a [|b l] IH]; try reflexivity.
  cbn [map] in *. rewrite map_consecutive_cons, IH. reflexivity.
Qed.

Lemma deltas_length (closes : list Q) : length (Spec.deltas closes) = (length closes - 1)%nat.
Proof.
  induction closes as [|a [|b l] IH]; try reflexivity.
  cbn [Spec.deltas length] in *. rewrite IH. lia.
Qed.

Lemma gains_finite (ds : list Q) :
  map (fun c => if (c >? JNum 0)%js then c else JNum 0) (map JNum ds)
  = map JNum (map Spec.gain ds).
Proof.
  rewrite !map_map. apply map_ext. intros d. unfold Spec.gain.
  change (JNum d >? JNum 0)%js with (negb (Qle_bool d 0)).
  destruct (Qle_bool d 0); reflexivity.
Qed.

Lemma losses_finite (ds : list Q) :
  map (fun c => if (c <? JNum 0)%js then (- c)%js else JNum 0) (map JNum ds)
  = map JNum (map Spec.loss ds).
Proof.
  rewrite !map_map. apply map_ext. intros d. unfold Spec.loss.
  change (JNum d <? JNum 0)%js with (negb (Qle_bool 0 d)).
  destruct (Qle_bool 0 d); reflexivity.
Qed.

Lemma slice_last_map {A B} (f : A -> B) (n : nat) (l : list A) :
  slice_last n (map f l) = map f (skipn (length l - n) l).
Proof. unfold slice_last. rewrite length_map. apply skipn_map. Qed.

Lemma Qis_zero_Qeq_bool (q : Q) : JS.Qis_zero q = Qeq_bool q 0.
Proof.
  destruct (Qeq_bool q 0) eqn:H.
  - apply Qis_zero_true, Qeq_bool_eq, H.
  - apply Qis_zero_false, Qeq_bool_neq, H.
Qed.

(** The value of the classic formula stays between 0 and 100. *)
Lemma rsi_formula_bounds (G L : Q) :
  0 <= G -> 0 < L ->
  0 < 1 + G / L /\ (0 <= Spec.round (100 - 100 / (1 + G / L)) <= 100)%Z.
Proof.
  intros HG HL.
  assert (Hr : 0 <= G / L) by (apply Qle_shift_div_l; [exact HL | lra]).
  assert (Hpos : 0 < 1 + G / L) by lra.
  split; [exact Hpos|].
  assert (Hy0 : 0 < 100 / (1 + G / L)) by (apply Qlt_shift_div_l; [exact Hpos | lra]).
  assert (Hy1 : 100 / (1 + G / L) <= 100) by (apply Qle_shift_div_r; [exact Hpos | lra]).
  unfold Spec.round.
  pose proof (Qfloor_le (100 - 100 / (1 + G / L) + (1 # 2))) as Hlo.
  pose proof (Qlt_floor (100 - 100 / (1 + G / L) + (1 # 2))) as Hhi.
  split.
  - assert (-1 < Qfloor (100 - 100 / (1 + G / L) + (1 # 2)))%Z; [|lia].
    rewrite Zlt_Qlt. rewrite inject_Z_plus in Hhi.
    change (inject_Z 1) with 1 in Hhi. change (inject_Z (-1)) with (-1). lra.
  - assert (Qfloor (100 - 100 / (1 + G / L) + (1 # 2)) < 101)%Z; [|lia].
    rewrite Zlt_Qlt. change (inject_Z 101) with 101. lra.
Qed.

Lemma div_finite (x y : Q) : ~ y == 0 -> (JNum x / JNum y)%js = JNum (x / y).
Proof.
  intros Hy. apply Qis_zero_false in Hy. unfold JS.div. rewrite Hy. reflexivity.
Qed.

Lemma average_nonneg (f : Q -> Q) (l : list Q) :
  (forall d, 0 <= f d) -> 0 <= Spec.sum (map f l) / inject_Z (Z.of_nat CONFIG.RSI_PERIOD).
Proof.
  intros Hf. apply Qle_shift_div_l; [reflexivity|].
  pose proof (sum_map_nonneg f l Hf). lra.
Qed.

(** [rsi] computes the specification's RSI of the closes. *)
Lemma rsi_refines (ohlcv : list candle) :
  rsi ohlcv = JS.of_Z (Spec.rsi CONFIG.RSI_PERIOD (map k_close ohlcv)).
Proof.
  unfold rsi, Spec.rsi, closes_of.
  rewrite <- (map_map k_close JNum ohlcv). rewrite length_map.
  set (closes := map k_close ohlcv).
  destruct (length closes <? CONFIG.RSI_PERIOD + 1)%nat; [reflexivity|].
  rewrite changes_finite, gains_finite, losses_finite, !slice_last_map, !length_map,
    !skipn_map, !sum_js_finite.
  set (recent := skipn (length (Spec.deltas closes) - CONFIG.RSI_PERIOD) (Spec.deltas closes)).
  change (JS.of_Z (Z.of_nat CONFIG.RSI_PERIOD)) with (JNum (inject_Z (Z.of_nat CONFIG.RSI_PERIOD))).
  rewrite !div_finite by (intros H; discriminate H).
  pose proof (average_nonneg Spec.gain recent gain_nonneg) as HG.
  pose proof (average_nonneg Spec.loss recent loss_nonneg) as HL.
  set (avgGain := Spec.sum (map Spec.gain recent) / inject_Z (Z.of_nat CONFIG.RSI_PERIOD)) in *.
  set (avgLoss := Spec.sum (map Spec.loss recent) / inject_Z (Z.of_nat CONFIG.RSI_PERIOD)) in *.
  change (JNum avgLoss === JNum 0)%js with (Qeq_bool avgLoss 0).
  change (JNum avgGain >? JNum 0)%js with (negb (Qle_bool avgGain 0)).
  destruct (Qeq_bool avgLoss 0) eqn:Hz.
  - destruct (Qle_bool avgGain 0); reflexivity.
  - apply Qeq_bool_neq in Hz.
    assert (Hpos : 0 < avgLoss) by (apply Qle_lteq in HL; destruct HL as [H|H]; [exact H|];
                                    exfalso; apply Hz; symmetry; exact H).
    destruct (rsi_formula_bounds avgGain avgLoss HG Hpos) as [Hone _].
    rewrite (div_finite avgGain avgLoss Hz).
    change (JNum 1 + JNum (avgGain / avgLoss))%js with (JNum (1 + avgGain / avgLoss)).
    rewrite div_finite by (intros H; rewrite H in Hone; discriminate Hone).
    reflexivity.
Qed.

Lemma rsi_spec_range (closes : list Q) :
  (0 <= Spec.rsi CONFIG.RSI_PERIOD closes <= 100)%Z.
Proof.
  unfold Spec.rsi.
  destruct (length closes <? CONFIG.RSI_PERIOD + 1)%nat; [lia|].
  set (recent := skipn _ _).
  pose proof (average_nonneg Spec.gain recent gain_nonneg) as HG.
  pose proof (average_nonneg Spec.loss recent loss_nonneg) as HL.
  destruct (Qeq_bool _ 0) eqn:Hz.
  - destruct (Qle_bool _ 0); lia.
  - apply Qeq_bool_neq in Hz. apply rsi_formula_bounds; [exact HG|].
    apply Qle_lteq in HL. destruct HL as [H|H]; [exact H|].
    exfalso. apply Hz. symmetry. exact H.
Qed.

Lemma deltas_flat (c : Q) (n : nat) : Forall (fun d => d == 0) (Spec.deltas (repeat c n)).
Proof.
  induction n as [|[|n] IH]; cbn [repeat Spec.deltas] in *; constructor; [ring | exact IH].
Qed.

Lemma Forall_skipn {A} (P : A -> Prop) (n : nat) (l : list A) :
  Forall P l -> Forall P (skipn n l).
Proof. apply Forall_drop. Qed.

Lemma rsi_spec_flat (c : Q) (n : nat) : Spec.rsi CONFIG.RSI_PERIOD (repeat c n) = 50%Z.
Proof.
  unfold Spec.rsi.
  destruct (length (repeat c n) <? CONFIG.RSI_PERIOD + 1)%nat; [reflexivity|].
  set (recent := skipn _ _).
  assert (Hflat : Forall (fun d => d == 0) recent) by apply Forall_skipn, deltas_flat.
  assert (HG : Spec.sum (map Spec.gain recent) == 0).
  { apply fold_plus_zero. apply List.Forall_forall. intros x Hin.
    apply in_map_iff in Hin. destruct Hin as (d & <- & Hin).
    rewrite List.Forall_forall in Hflat. specialize (Hflat d Hin).
    unfold Spec.gain. destruct (Qle_bool d 0) eqn:E; [reflexivity | exact Hflat]. }
  assert (HL : Spec.sum (map Spec.loss recent) == 0).
  { apply fold_plus_zero. apply List.Forall_forall. intros x Hin.
    apply in_map_iff in Hin. destruct Hin as (d & <- & Hin).
    rewrite List.Forall_forall in Hflat. specialize (Hflat d Hin).
    unfold Spec.loss. destruct (Qle_bool 0 d) eqn:E; [reflexivity | rewrite Hflat; reflexivity]. }
  rewrite HL, HG. reflexivity.
Qed.


Lemma toFixed_comp (d : nat) (x y : Q) : x == y -> JS.toFixed d (JNum x) = JS.toFixed d (JNum y).
Proof.
  intros H. unfold JS.toFixed.
  rewrite (Qleb_comp 0 0 (Qeq_refl 0) x y H).
  rewrite (Qfloor_comp (Qabs x * inject_Z (Z.pos (Z.to_pos (10 ^ Z.of_nat d))) + (1 # 2))
             (Qabs y * inject_Z (Z.pos (Z.to_pos (10 ^ Z.of_nat d))) + (1 # 2)))
    by (rewrite H; reflexivity).
  reflexivity.
Qed.

(** With no daily candle at all the average volume is replaced by 1: the
    ratio is the current volume itself. *)
Lemma volumeRatio_empty (currentVolume : jsnum) :
  volumeRatio currentVolume [] = JS.toFixed 2 currentVolume.
Proof.
  unfold volumeRatio. cbn [fold_left].
  change (JNum 0 / JS.of_length [] || JNum 1)%js with (JNum 1).
  destruct currentVolume as [q| | |]; try reflexivity.
  rewrite div_finite by (intros H; discriminate H).
  apply toFixed_comp. field.
Qed.

Section Indicators.

Variable sqrtQ : Q -> Q.
Variable up : upstream.

(** The nested [reduce] of the source is the population standard deviation. *)
Lemma stdDev_of_is_population_stdDev (changes : list jsnum) :
  stdDev_of sqrtQ changes = Spec.population_stdDev sqrtQ changes.
Proof.
  unfold stdDev_of, Spec.population_stdDev, sum_js.
  rewrite fold_left_plus_map. reflexivity.
Qed.


Lemma short_window_has_no_changes (ohlcv : list candle) :
  (length ohlcv < 2)%nat -> percent_changes (closes_of ohlcv) = [].
Proof.
  destruct ohlcv as [|c0 [|c1 rest]]; cbn [length]; intros H; try reflexivity. lia.
Qed.

(** With fewer than two candles there is no change to average: the deviation
    is [0 / 0]. *)
Lemma stdDev_of_nil : stdDev_of sqrtQ [] = JNaN.
Proof. reflexivity. Qed.


End Indicators.

(** ** The theorems at concrete inputs *)







Lemma results_exclude_popular_tokens_witness :
  exists resp w',
    pre_explosion_signals Data.sqrtQ Data.rising_upstream 1000 empty_world = (Ok resp, w')
    /\ (resp = Status500 "Internal server error"
        \/ exists l, resp = Json (PAlerts l)
                     /\ Forall (fun a => endsWith (a_symbol a) "USDT" = true
                                         /\ a_symbol a ∉ POPULAR_TOKENS) l).
Proof.
  exact (proj2 (results_exclude_popular_tokens Data.sqrtQ Data.rising_upstream 1000 empty_world
                  (reach_start Data.sqrtQ Data.rising_upstream))).
Defined.

(** Fifty popular tickers in front: the eligible, liquid symbol behind them is
    among the first 50 eligible symbols of the snapshot, yet no klines are
    requested for it (the only requests are the snapshot and the listing). *)
Lemma symbol_behind_first_50_tickers_is_not_scanned :
  fst (fetchData (up_ticker24hr Data.crowded_upstream) ReqTicker24hr 2 empty_world)
  = Ok Data.crowded
  /\ In "NEWUSDT"%string
       (map t_symbol
          (firstn 50 (List.filter (fun t => eligible (t_symbol t)) Data.crowded)))
  /\ w_log (snd (explosion_candidates Data.sqrtQ Data.crowded_upstream 1000 empty_world))
     = [ReqTicker24hr; ReqExchangeInfo]
  /\ w_log (snd (pre_explosion_signals Data.sqrtQ Data.crowded_upstream 1000 empty_world))
     = [ReqTicker24hr; ReqExchangeInfo].
Proof.
  split; [reflexivity|]. split; [vm_compute; left; reflexivity|]. split; vm_compute; reflexivity.
Qed.

Lemma candidate_pool_is_filtered_prefix_witness :
  exists d,
    w_log (snd (explosion_candidates Data.sqrtQ Data.rising_upstream 1000 empty_world))
    = [ReqTicker24hr] ++ d
    /\ forall s,
         Exists (klines_of s) d <->
         In s (map t_symbol
                 (List.filter
                    (fun t => eligible (t_symbol t)
                              && negb (JNum (baseVolume t) <? JNum 30000)%js)
                    (firstn 50 [Data.tick "BTCUSDT" 1000000; Data.tick "NEWUSDT" 50000]))).
Proof.
  refine (proj1 (candidate_pool_is_filtered_prefix Data.sqrtQ Data.rising_upstream 1000
                   empty_world
                   {| w_log := [ReqTicker24hr]; shortCache := ∅; longCache := ∅ |}
                   [Data.tick "BTCUSDT" 1000000; Data.tick "NEWUSDT" 50000] _) _).
  - reflexivity.
  - reflexivity.
Defined.

Lemma cache_hit_short_circuits_witness :
  explosion_candidates Data.sqrtQ Data.rising_upstream 1000 Data.warm_world
  = (Ok (Json Data.cached_result), Data.warm_world)
  /\ w_log (snd (explosion_candidates Data.sqrtQ Data.rising_upstream 1000 Data.warm_world))
     = w_log Data.warm_world.
Proof.
  refine (proj1 (cache_hit_short_circuits Data.sqrtQ Data.rising_upstream 1000 Data.warm_world
                   Data.cached_result 120000) _ _).
  - vm_compute. reflexivity.
  - lia.
Defined.

(** * Further properties of the code *)

(** ** [fetchData] *)

Lemma fetchData_attempts {A} (ask : nat -> option A) (url : request)
    (retries : nat) (w : world) :
  let n := length (w_log w) in
  let out := fetchData ask url retries w in
  exists k,
    (1 <= k <= retries + 1)%nat
    /\ w_log (snd out) = w_log w ++ repeat url k
    /\ shortCache (snd out) = shortCache w
    /\ longCache (snd out) = longCache w
    /\ (forall j, (j < k - 1)%nat -> ask (n + j)%nat = None)
    /\ match fst out with
       | Ok data => ask (n + (k - 1))%nat = Some data
       | Throw => k = (retries + 1)%nat /\ ask (n + (k - 1))%nat = None
       end.
Proof.
  revert w. induction retries as [|r IH]; intros w n out; subst n out;
    cbn [fetchData]; unfold try_catch, axios_get;
    destruct (ask (length (w_log w))) as [data|] eqn:Hask.
  - exists 1%nat. cbn [fst snd w_log shortCache longCache repeat].
    rewrite Nat.add_0_r. repeat split; try lia; try assumption; intros j Hj; lia.
  - exists 1%nat. unfold throw. cbn [fst snd w_log shortCache longCache repeat].
    rewrite Nat.add_0_r. repeat split; try lia; try assumption; intros j Hj; lia.
  - exists 1%nat. cbn [fst snd w_log shortCache longCache repeat].
    rewrite Nat.add_0_r. repeat split; try lia; try assumption; intros j Hj; lia.
  - match goal with
    | |- context [fetchData ask url r ?w1] =>
        destruct (IH w1) as (k & Hk & Hlog & Hs & Hl & Hnone & Hres)
    end.
    cbn [w_log shortCache longCache] in *. rewrite length_app in *. cbn [length] in *.
    exists (S k). rewrite Hlog, Hs, Hl, <- app_assoc. cbn [app repeat].
    split; [lia|]. split; [reflexivity|]. split; [reflexivity|]. split; [reflexivity|]. split.
    + intros [|j] Hj; [rewrite Nat.add_0_r; exact Hask|].
      replace (length (w_log w) + S j)%nat with (length (w_log w) + 1 + j)%nat by lia.
      apply Hnone. lia.
    + replace (length (w_log w) + (S k - 1))%nat
        with (length (w_log w) + 1 + (k - 1))%nat by lia.
      destruct (fst (fetchData ask url r _)); [exact Hres|].
      destruct Hres as [-> Hlast]. split; [lia | exact Hlast].
Qed.

(** [fetchData(url, retries)] asks the upstream again and again until it
    answers, [retries + 1] times at most: it throws exactly when all
    [retries + 1] requests fail, and otherwise returns the first answer,
    having sent the request once more than there were failures.  It sends
    that one request only, and leaves both stores alone. *)
Theorem fetchData_returns_first_answer {A} (ask : nat -> option A) (url : request)
    (retries : nat) (w : world) :
  let n := length (w_log w) in
  let out := fetchData ask url retries w in
  (fst out = Throw <-> forall j, (j <= retries)%nat -> ask (n + j)%nat = None)
  /\ (forall data, fst out = Ok data ->
       exists k, (k <= retries)%nat
                 /\ ask (n + k)%nat = Some data
                 /\ (forall j, (j < k)%nat -> ask (n + j)%nat = None)
                 /\ w_log (snd out) = w_log w ++ repeat url (S k))
  /\ (exists k, (1 <= k <= retries + 1)%nat /\ w_log (snd out) = w_log w ++ repeat url k)
  /\ shortCache (snd out) = shortCache w
  /\ longCache (snd out) = longCache w.
Proof.
  intros n out. pose proof (fetchData_attempts ask url retries w) as H.
  cbv zeta in H. fold n out in H.
  destruct H as (k & Hk & Hlog & Hs & Hl & Hnone & Hres).
  split; [|split; [|split; [|split]]]; try assumption.
  - destruct (fst out) as [data|].
    + split; [discriminate|]. intros Hall.
      rewrite (Hall (k - 1)%nat) in Hres by lia. discriminate.
    + destruct Hres as [-> Hlast]. split; [|reflexivity]. intros _ j Hj.
      destruct (Nat.eq_dec j (retries + 1 - 1)%nat) as [->|Hne]; [exact Hlast|].
      apply Hnone. lia.
  - intros data Hdata. rewrite Hdata in Hres.
    exists (k - 1)%nat. split; [lia|]. split; [exact Hres|]. split; [exact Hnone|].
    replace (S (k - 1)) with k by lia. exact Hlog.
  - exists k. split; [exact Hk | exact Hlog].
Qed.

(** ** [calculateChange] *)

Lemma Qmake_as_div (n : Z) (d : positive) : n # d == inject_Z n / inject_Z (Zpos d).
Proof. apply Qmake_Qdiv. Qed.

(** [toFixed(2)] moves a number by half a hundredth at most. *)
Lemma toFixed_2_error (q : Q) :
  exists n : Z, JS.toFixed 2 (JNum q) = JNum (n # 100) /\ Qabs ((n # 100) - q) <= 1 # 200.
Proof.
  unfold JS.toFixed. change (Z.to_pos (10 ^ Z.of_nat 2)) with 100%positive.
  set (m := Qfloor (Qabs q * inject_Z 100 + (1 # 2))).
  pose proof (Qfloor_le (Qabs q * inject_Z 100 + (1 # 2))) as Hlo.
  pose proof (Qlt_floor (Qabs q * inject_Z 100 + (1 # 2))) as Hhi.
  fold m in Hlo, Hhi. rewrite inject_Z_plus in Hhi.
  change (inject_Z 1) with 1 in Hhi. change (inject_Z 100) with 100 in *.
  destruct (Qle_bool 0 q) eqn:Hq.
  - exists m. split; [reflexivity|].
    apply Qle_bool_iff in Hq. rewrite (Qabs_pos q Hq) in Hlo, Hhi.
    apply Qabs_Qle_condition. rewrite (Qmake_as_div m 100). change (inject_Z 100) with 100.
    assert (Hr : inject_Z m / 100 * 100 == inject_Z m) by field.
    set (r := inject_Z m / 100) in *. clearbody r. split; lra.
  - exists (- m)%Z. split; [reflexivity|].
    apply Qle_bool_false in Hq.
    rewrite (Qabs_neg q) in Hlo, Hhi by lra.
    apply Qabs_Qle_condition. rewrite (Qmake_as_div (- m) 100), inject_Z_opp.
    change (inject_Z 100) with 100.
    assert (Hr : - inject_Z m / 100 * 100 == - inject_Z m) by field.
    set (r := - inject_Z m / 100) in *. clearbody r. split; lra.
Qed.

(** With two candles and a first close that is not zero the change is a
    number of hundredths within 0.005 of the exact percent change of the
    close. *)
Theorem percentChange_is_rounded_percent_change (c0 c1 : candle) (rest : list candle) :
  ~ k_close c0 == 0 ->
  exists n : Z,
    percentChange (c0 :: c1 :: rest) = JNum (n # 100)
    /\ Qabs ((n # 100) - (k_close c1 - k_close c0) / k_close c0 * 100) <= 1 # 200.
Proof.
  intros Hprev. unfold percentChange.
  change (JNum (k_close c1) - JNum (k_close c0))%js with (JNum (k_close c1 - k_close c0)).
  rewrite (div_finite _ _ Hprev).
  change (JNum ((k_close c1 - k_close c0) / k_close c0) * JNum 100)%js
    with (JNum ((k_close c1 - k_close c0) / k_close c0 * 100)).
  apply toFixed_2_error.
Qed.

Lemma percentChange_is_rounded_percent_change_witness :
  exists n : Z,
    percentChange (Data.candles [100; 105]) = JNum (n # 100)
    /\ Qabs ((n # 100) - (105 - 100) / 100 * 100) <= 1 # 200.
Proof.
  apply (percentChange_is_rounded_percent_change (Data.flat 100 1000) (Data.flat 105 1000) []).
  cbn. intros H. discriminate H.
Defined.

(** With a first close of zero there is no guard: the change is an infinity
    of the sign of the second close, or [NaN] when that is zero too. *)
Theorem percentChange_of_zero_close_is_not_finite (c0 c1 : candle) (rest : list candle) :
  k_close c0 == 0 ->
  percentChange (c0 :: c1 :: rest)
  = match k_close c1 ?= 0 with
    | Gt => JPosInf
    | Lt => JNegInf
    | Eq => JNaN
    end.
Proof.
  intros Hprev. unfold percentChange.
  change (JNum (k_close c1) - JNum (k_close c0))%js with (JNum (k_close c1 - k_close c0)).
  unfold JS.div. rewrite (proj2 (Qis_zero_true _) Hprev).
  assert (Hsgn : JS.Qsgn (k_close c1 - k_close c0) = Z.sgn (Qnum (k_close c1))).
  { unfold JS.Qsgn. destruct (k_close c0) as [p0 d0], (k_close c1) as [p1 d1].
    unfold Qeq in Hprev. cbn in Hprev. assert (p0 = 0%Z) by lia. subst p0. cbn.
    rewrite Z.add_0_r, Z.sgn_mul. change (Z.sgn (Z.pos d0)) with 1%Z. apply Z.mul_1_r. }
  rewrite Hsgn.
  assert (Hcmp : (k_close c1 ?= 0) = (Qnum (k_close c1) ?= 0)%Z).
  { unfold Qcompare. cbn. rewrite Z.mul_1_r. reflexivity. }
  rewrite Hcmp. destruct (Qnum (k_close c1)); reflexivity.
Qed.

Lemma percentChange_of_zero_close_is_not_finite_witness :
  percentChange (Data.candles [0; 105]) = JPosInf.
Proof.
  apply (percentChange_of_zero_close_is_not_finite (Data.flat 0 1000) (Data.flat 105 1000) []).
  reflexivity.
Defined.

(** ** [calculateVolumeRatio] *)


(** ** ScoringPolicy *)

Lemma weighted_sum_linear (c5 c1 vr r b : Q) :
  c5 / 25 * 100 * 0.4 + c1 / 35 * 100 * 0.2 + vr / 10 * 100 * 0.3 + r * 0.1 + b
  == c5 * (8 # 5) + c1 * (4 # 7) + vr * 3 + r * (1 # 10) + b.
Proof. field. Qed.

Lemma round_ge (x : Q) (n : Z) : inject_Z n <= x + (1 # 2) -> (n <= Spec.round x)%Z.
Proof.
  intros H. unfold Spec.round. rewrite <- (Qfloor_Z n). apply Qfloor_resp_le. exact H.
Qed.

Lemma ge_finite_or_inf (a : jsnum) (q : Q) :
  (a >=? JNum q)%js = true -> (exists x, a = JNum x /\ q <= x) \/ a = JPosInf.
Proof.
  destruct a as [x| | |]; js_compare; try discriminate.
  - intros H. left. exists x. split; [reflexivity | apply Qle_bool_iff, H].
  - right. reflexivity.
Qed.

(** In the explosion scenario the score test of the admission never decides:
    a symbol that passes the tests on change5m, change1h, volumeRatio and the
    RSI band scores 42 at least, above the threshold 40. *)
Theorem explosion_score_threshold_is_implied (change5m change1h rsi volumeRatio : jsnum)
    (new compressed : bool) :
  (change5m >=? JNum 3)%js = true ->
  (change1h >=? JNum 4)%js = true ->
  (volumeRatio >=? JNum 1.5)%js = true ->
  rsi_in_band rsi = true ->
  (explosionScore_of change5m change1h rsi volumeRatio new compressed >=? JNum 42)%js = true
  /\ explosion_admitted change5m change1h rsi volumeRatio
       (explosionScore_of change5m change1h rsi volumeRatio new compressed) = true.
Proof.
  intros H5 H1 Hv Hband.
  assert (H42 : (explosionScore_of change5m change1h rsi volumeRatio new compressed
                 >=? JNum 42)%js = true).
  { destruct (ge_finite_or_inf _ _ H5) as [(c5 & -> & Hc5)| ->],
             (ge_finite_or_inf _ _ H1) as [(c1 & -> & Hc1)| ->],
             (ge_finite_or_inf _ _ Hv) as [(vr & -> & Hvr)| ->];
      try (unfold explosionScore_of; rewrite Hband; destruct new, compressed; reflexivity).
    rewrite explosionScore_finite, Hband. unfold_policy.
    unfold JS.of_Z. js_compare. apply Qle_bool_iff. change 42 with (inject_Z 42).
    rewrite <- Zle_Qle. apply round_ge.
    assert (E : c5 / 25 * 100 * 0.4 + c1 / 35 * 100 * 0.2 + vr / 10 * 100 * 0.3 + 100 * 0.1
                + (if new then 20 else 0) + (if compressed then 10 else 0) + 20
                == c5 * (8 # 5) + c1 * (4 # 7) + vr * 3 + 100 * (1 # 10)
                   + ((if new then 20 else 0) + (if compressed then 10 else 0) + 20))
      by (destruct new, compressed; field).
    rewrite E. change (inject_Z 42) with 42.
    destruct new, compressed; lra. }
  split; [exact H42|].
  apply explosion_admitted_spec.
  unfold rsi_in_band in Hband. apply andb_true_iff in Hband. destruct Hband as [Hlo Hhi].
  repeat split; try assumption.
  apply (ge_trans_Q _ 42 40); [lra | exact H42].
Qed.

Lemma explosion_score_threshold_is_implied_witness :
  (explosionScore_of (JNum 3) (JNum 4) (JNum 40) (JNum 1.5) false false >=? JNum 42)%js = true
  /\ explosion_admitted (JNum 3) (JNum 4) (JNum 40) (JNum 1.5)
       (explosionScore_of (JNum 3) (JNum 4) (JNum 40) (JNum 1.5) false false) = true.
Proof.
  apply explosion_score_threshold_is_implied; reflexivity.
Defined.


(** The explosion score never goes down when change5m, change1h or the
    volume ratio go up. *)
Theorem explosion_score_is_monotone (c5 c5' c1 c1' vr vr' : Q) (rsi : jsnum)
    (new compressed : bool) :
  c5 <= c5' -> c1 <= c1' -> vr <= vr' ->
  (explosionScore_of (JNum c5') (JNum c1') rsi (JNum vr') new compressed
   >=? explosionScore_of (JNum c5) (JNum c1) rsi (JNum vr) new compressed)%js = true.
Proof.
  intros H5 H1 Hv. rewrite !explosionScore_finite. unfold JS.of_Z. js_compare.
  apply Qle_bool_iff. rewrite <- Zle_Qle. unfold_policy. unfold Spec.round.
  apply Qfloor_resp_le.
  set (r := if rsi_in_band rsi then 100 else 50).
  set (b := (if new then 20 else 0) + (if compressed then 10 else 0) + 20).
  assert (E : forall a b' c,
             a / 25 * 100 * 0.4 + b' / 35 * 100 * 0.2 + c / 10 * 100 * 0.3 + r * 0.1 +
             (if new then 20 else 0) + (if compressed then 10 else 0) + 20 + (1 # 2)
             == a * (8 # 5) + b' * (4 # 7) + c * 3 + r * (1 # 10) + b + (1 # 2))
    by (intros; subst b; field).
  rewrite !E. lra.
Qed.

Lemma explosion_score_is_monotone_witness :
  (explosionScore_of (JNum 4) (JNum 40) (JNum 55) (JNum 2) false true
   >=? explosionScore_of (JNum 4) (JNum 5) (JNum 55) (JNum 2) false true)%js = true.
Proof.
  apply explosion_score_is_monotone; lra.
Defined.

Section MoreProperties.

Variable sqrtQ : Q -> Q.
Variable up : upstream.

(** ** [calculateVolatility] and [calculateCompression] *)

(** [calculateVolatility] has no guard for a short window: with fewer than
    two candles the deviation is [Math.sqrt(0 / 0)] and the function returns
    ["NaN"], not its fallback 10. *)
Theorem volatility_short_window_is_NaN (ohlcv : list candle) :
  (length ohlcv < 2)%nat -> volatility sqrtQ ohlcv = JNaN.
Proof.
  intros Hlen. unfold volatility. rewrite (short_window_has_no_changes ohlcv Hlen).
  reflexivity.
Qed.

(** [Math.sqrt] never returns [-Infinity]. *)
Lemma sqrt_cases (a : jsnum) :
  (exists x, JS.sqrt sqrtQ a = JNum x) \/ JS.sqrt sqrtQ a = JNaN \/ JS.sqrt sqrtQ a = JPosInf.
Proof.
  destruct a as [q| | |]; cbn; auto. destruct (Qle_bool 0 q); eauto.
Qed.

(** The two functions read the same klines the same way: on a window that
    [calculateCompression] calls compressed, [calculateVolatility] reports a
    number, and at most 0.50. *)
Theorem compressed_window_has_low_volatility (ohlcv : list candle) :
  isCompressed sqrtQ ohlcv = true ->
  exists v : Q, volatility sqrtQ ohlcv = JNum v /\ v <= 1 # 2.
Proof.
  unfold isCompressed, volatility.
  set (stdDev := stdDev_of sqrtQ (percent_changes (closes_of ohlcv))).
  assert (Hs : (exists x, stdDev = JNum x) \/ stdDev = JNaN \/ stdDev = JPosInf)
    by apply sqrt_cases.
  destruct Hs as [(x & ->)|[-> | ->]]; js_compare; try discriminate.
  rewrite negb_true_iff, Qle_bool_false. unfold CONFIG.COMPRESSION_THRESHOLD. intros Hx.
  unfold JS.toFixed. change (Z.to_pos (10 ^ Z.of_nat 2)) with 100%positive.
  set (m := Qfloor (Qabs x * inject_Z 100 + (1 # 2))).
  assert (Hm0 : (0 <= m)%Z).
  { subst m. rewrite <- (Qfloor_Z 0). apply Qfloor_resp_le.
    pose proof (Qabs_nonneg x). change (inject_Z 100) with 100. change (inject_Z 0) with 0. lra. }
  destruct (Qle_bool 0 x) eqn:Hpos.
  - exists (m # 100). split; [reflexivity|].
    apply Qle_bool_iff in Hpos.
    assert (Hm : (m <= 50)%Z).
    { assert (m < 51)%Z; [|lia]. rewrite Zlt_Qlt.
      pose proof (Qfloor_le (Qabs x * inject_Z 100 + (1 # 2))) as Hlo. fold m in Hlo.
      rewrite (Qabs_pos x Hpos) in Hlo. change (inject_Z 100) with 100 in Hlo.
      change (inject_Z 51) with 51. lra. }
    clearbody m. unfold Qle. cbn. lia.
  - exists (- m # 100). split; [reflexivity|]. clearbody m. unfold Qle. cbn. lia.
Qed.

(** ** [getNewListings] *)

Lemma sorted_by_onboardDate (infos : list symbol_info) :
  StronglySorted (fun a b => (onboardDate b <= onboardDate a)%Z)
    (sort (fun a b => JS.of_Z (onboardDate b) - JS.of_Z (onboardDate a))%js infos).
Proof.
  assert (H : StronglySorted (desc (fun i => JS.of_Z (onboardDate i)))
                (sort (by_score_desc (fun i => JS.of_Z (onboardDate i))) infos)).
  { apply Sorted_StronglySorted; [apply desc_transitive|]. apply sort_sorted.
    apply List.Forall_forall. intros i _. discriminate. }
  change (sort (fun a b => JS.of_Z (onboardDate b) - JS.of_Z (onboardDate a))%js infos)
    with (sort (by_score_desc (fun i => JS.of_Z (onboardDate i))) infos).
  revert H. generalize (sort (by_score_desc (fun i => JS.of_Z (onboardDate i))) infos).
  intros l H. induction H as [|a l _ IH Ha]; constructor; [exact IH|].
  eapply List.Forall_impl; [|exact Ha].
  intros b. unfold desc, JS.of_Z. js_compare. rewrite Qle_bool_iff, <- Zle_Qle. auto.
Qed.

Lemma StronglySorted_firstn {A} (R : A -> A -> Prop) (n : nat) (l : list A) :
  StronglySorted R l -> StronglySorted R (firstn n l).
Proof.
  intros H. revert n. induction H as [|a l _ IH Ha]; intros [|n]; cbn; try constructor.
  - apply IH.
  - apply Forall_take, Ha.
Qed.

Lemma StronglySorted_app_between {A} (R : A -> A -> Prop) (l1 l2 : list A) :
  StronglySorted R (l1 ++ l2) -> Forall (fun x => Forall (R x) l2) l1.
Proof.
  induction l1 as [|a l1 IH]; cbn; intros H; constructor; inversion H; subst.
  - match goal with Hall : Forall (R a) (l1 ++ l2) |- _ =>
      apply List.Forall_app in Hall; apply Hall end.
  - apply IH. assumption.
Qed.

Lemma getNewListings_hit (now : Z) (w : world) (cached : list string) :
  cache_get now (longCache w) "newListings" = Some cached ->
  getNewListings up now w = (Ok cached, w).
Proof.
  intros Hhit. unfold getNewListings. cbv [try_catch bind get_world]. rewrite Hhit. reflexivity.
Qed.


(** A live cached listing is returned without any request; a listing that
    cannot be fetched (three failed requests) is the empty one, and it is not
    cached: the next call asks the upstream again. *)
Theorem getNewListings_hit_or_failure (now : Z) (w : world) :
  (forall cached, cache_get now (longCache w) "newListings" = Some cached ->
                  getNewListings up now w = (Ok cached, w))
  /\ (cache_get now (longCache w) "newListings" = None ->
      fst (fetchData (up_exchangeInfo up) ReqExchangeInfo 2 w) = Throw ->
      exists w', getNewListings up now w = (Ok [], w')
                 /\ w_log w' = w_log w ++ [ReqExchangeInfo; ReqExchangeInfo; ReqExchangeInfo]
                 /\ longCache w' = longCache w /\ shortCache w' = shortCache w).
Proof.
  split; [intros cached; apply getNewListings_hit|].
  intros Hmiss Hthrow.
  pose proof (fetchData_attempts (up_exchangeInfo up) ReqExchangeInfo 2 w) as Hf.
  cbv zeta in Hf. destruct Hf as (k & _ & Hlog & Hs & Hl & _ & Hres).
  rewrite Hthrow in Hres. destruct Hres as [-> _].
  unfold getNewListings. cbv [try_catch bind get_world]. rewrite Hmiss.
  destruct (fetchData (up_exchangeInfo up) ReqExchangeInfo 2 w) as [[listings|] w1];
    cbn [fst snd] in *; [discriminate|].
  exists w1. split; [reflexivity|]. split; [exact Hlog|]. split; assumption.
Qed.

(** ** [/api/new-listings] *)

(** The route cannot answer 500: [getNewListings] never throws, and the route
    sends what it returns. *)
Theorem new_listings_never_fails (now : Z) (w : world) :
  exists listings w',
    new_listings up now w = (Ok (Body listings), w')
    /\ getNewListings up now w = (Ok listings, w').
Proof.
  destruct (getNewListings_ok up now w) as (listings & w' & d & Hrun & _).
  exists listings, w'. split; [|exact Hrun].
  unfold new_listings. cbv [try_catch bind ret]. rewrite Hrun, map_id. reflexivity.
Qed.

(** ** [/api/top-gainers] *)

Lemma sorted_by_change (ts : list ticker) :
  StronglySorted (fun a b => priceChangePercent b <= priceChangePercent a)
    (sort (fun a b => JNum (priceChangePercent b) - JNum (priceChangePercent a))%js ts).
Proof.
  assert (H : StronglySorted (desc (fun t => JNum (priceChangePercent t)))
                (sort (by_score_desc (fun t => JNum (priceChangePercent t))) ts)).
  { apply Sorted_StronglySorted; [apply desc_transitive|]. apply sort_sorted.
    apply List.Forall_forall. intros i _. discriminate. }
  change (sort (fun a b => JNum (priceChangePercent b) - JNum (priceChangePercent a))%js ts)
    with (sort (by_score_desc (fun t => JNum (priceChangePercent t))) ts).
  revert H. generalize (sort (by_score_desc (fun t => JNum (priceChangePercent t))) ts).
  intros l H. induction H as [|a l _ IH Ha]; constructor; [exact IH|].
  eapply List.Forall_impl; [|exact Ha].
  intros b. unfold desc. js_compare. rewrite Qle_bool_iff. auto.
Qed.

(** The route filters the whole snapshot before it cuts: its answer is the
    ten best 24h changes among all the tickers that end with USDT, are not
    popular and have a volume of 20000 at least, best first.  Nothing is
    cached: the world only gains the snapshot requests. *)
Theorem top_gainers_are_the_best_ten (w w1 : world) (data : list ticker) :
  fetchData (up_ticker24hr up) ReqTicker24hr 2 w = (Ok data, w1) ->
  let kept t :=
    negb (popular (t_symbol t)) && endsWith (t_symbol t) "USDT"
    && (JNum (baseVolume t) >=? JNum 20000)%js in
  exists top,
    top_gainers up w
    = (Ok (Body (map (fun t => {| g_symbol := t_symbol t;
                                   g_price := JNum (lastPrice t);
                                   g_priceChangePercent := JNum (priceChangePercent t) |})
                   top)), w1)
    /\ (length top <= 10)%nat
    /\ Forall (fun t => In t data /\ kept t = true) top
    /\ StronglySorted (fun a b => priceChangePercent b <= priceChangePercent a) top
    /\ forall t, In t data -> kept t = true ->
         In t top
         \/ (length top = 10%nat
             /\ Forall (fun x => priceChangePercent t <= priceChangePercent x) top).
Proof.
  intros Hfetch kept.
  set (sorted := sort (fun a b => JNum (priceChangePercent b) - JNum (priceChangePercent a))%js
                   (List.filter kept data)).
  assert (Hsorted : StronglySorted (fun a b => priceChangePercent b <= priceChangePercent a)
                      sorted) by apply sorted_by_change.
  exists (firstn CONFIG.TOP_RESULTS sorted). split.
  { unfold top_gainers. cbv [try_catch bind ret]. rewrite Hfetch. reflexivity. }
  split; [apply firstn_le_length|]. split; [|split].
  - apply Forall_take. eapply Permutation_Forall; [symmetry; apply sort_perm|].
    apply List.Forall_forall. intros t Hin. apply filter_In in Hin. exact Hin.
  - apply StronglySorted_firstn, Hsorted.
  - intros t Hin Hkept.
    assert (Hs : In t sorted).
    { eapply Permutation_in; [symmetry; apply sort_perm|]. apply filter_In. auto. }
    rewrite <- (firstn_skipn CONFIG.TOP_RESULTS sorted) in Hs, Hsorted.
    apply in_app_or in Hs. destruct Hs as [Hs|Hs]; [left; exact Hs|]. right. split.
    + apply firstn_length_le.
      destruct (Nat.le_gt_cases CONFIG.TOP_RESULTS (length sorted)) as [H|H]; [exact H|].
      rewrite skipn_all2 in Hs by lia. destruct Hs.
    + apply StronglySorted_app_between in Hsorted.
      eapply List.Forall_impl; [|exact Hsorted].
      intros x Hx. rewrite List.Forall_forall in Hx. apply Hx, Hs.
Qed.

(** When the snapshot cannot be fetched the route answers 500. *)
Theorem top_gainers_failure (w : world) :
  fst (fetchData (up_ticker24hr up) ReqTicker24hr 2 w) = Throw ->
  exists w', top_gainers up w = (Ok (Error500 "Error fetching top gainers"), w')
             /\ shortCache w' = shortCache w /\ longCache w' = longCache w.
Proof.
  intros Hthrow.
  pose proof (fetchData_attempts (up_ticker24hr up) ReqTicker24hr 2 w) as Hf.
  cbv zeta in Hf. destruct Hf as (k & _ & _ & Hs & Hl & _).
  unfold top_gainers. cbv [try_catch bind ret].
  destruct (fetchData (up_ticker24hr up) ReqTicker24hr 2 w) as [[data|] w1];
    cbn [fst snd] in *; [discriminate|].
  exists w1. split; [reflexivity|]. split; assumption.
Qed.

(** ** The pipelines: caching *)

(** A result computed on a miss is served again, unchanged and without any
    upstream request, by every call of the same route up to
    [CACHE_SHORT_TTL] = 120 s later. *)
Theorem fresh_result_is_served_for_120s (now later : Z) (w w' : world) (p : payload) :
  (later <= now + 120000)%Z ->
  (cache_get now (shortCache w) "explosionCandidates" = None ->
   explosion_candidates sqrtQ up now w = (Ok (Json p), w') ->
   explosion_candidates sqrtQ up later w' = (Ok (Json p), w'))
  /\ (cache_get now (shortCache w) "preExplosionSignals" = None ->
      pre_explosion_signals sqrtQ up now w = (Ok (Json p), w') ->
      pre_explosion_signals sqrtQ up later w' = (Ok (Json p), w')).
Proof.
  intros Hlater. split; intros Hmiss Hrun.
  - pose proof (explosion_candidates_miss sqrtQ up now w Hmiss) as Hm.
    destruct (fetchData (up_ticker24hr up) ReqTicker24hr 2 w) as [[tickerData|] w1].
    + destruct Hm as (candidates & w'' & dl & d & Hrun' & _ & _ & _ & _ & Hs).
      cbv zeta in Hrun'. rewrite Hrun' in Hrun. injection Hrun as <- <-.
      apply explosion_candidates_hit. rewrite Hs. apply cache_get_set.
      unfold CONFIG.CACHE_SHORT_TTL. lia.
    + destruct Hm as (w'' & Hrun' & _). rewrite Hrun' in Hrun. discriminate.
  - pose proof (pre_explosion_signals_miss sqrtQ up now w Hmiss) as Hm.
    destruct (fetchData (up_ticker24hr up) ReqTicker24hr 2 w) as [[tickerData|] w1].
    + destruct Hm as (alerts & w'' & dl & d & Hrun' & _ & _ & _ & _ & Hs).
      cbv zeta in Hrun'. rewrite Hrun' in Hrun. injection Hrun as <- <-.
      apply pre_explosion_signals_hit. rewrite Hs. apply cache_get_set.
      unfold CONFIG.CACHE_SHORT_TTL. lia.
    + destruct Hm as (w'' & Hrun' & _). rewrite Hrun' in Hrun. discriminate.
Qed.

(** When the ticker snapshot cannot be fetched a pipeline answers 500 and
    stores nothing: the next call starts a run again. *)
Theorem failed_snapshot_is_an_error_and_is_not_cached (now : Z) (w : world) :
  fst (fetchData (up_ticker24hr up) ReqTicker24hr 2 w) = Throw ->
  (cache_get now (shortCache w) "explosionCandidates" = None ->
   exists w', explosion_candidates sqrtQ up now w
              = (Ok (Status500 "Internal server error"), w')
              /\ shortCache w' = shortCache w)
  /\ (cache_get now (shortCache w) "preExplosionSignals" = None ->
      exists w', pre_explosion_signals sqrtQ up now w
                 = (Ok (Status500 "Internal server error"), w')
                 /\ shortCache w' = shortCache w).
Proof.
  intros Hthrow. split; intros Hmiss.
  - pose proof (explosion_candidates_miss sqrtQ up now w Hmiss) as Hm.
    destruct (fetchData (up_ticker24hr up) ReqTicker24hr 2 w) as [[tickerData|] w1];
      [discriminate | exact Hm].
  - pose proof (pre_explosion_signals_miss sqrtQ up now w Hmiss) as Hm.
    destruct (fetchData (up_ticker24hr up) ReqTicker24hr 2 w) as [[tickerData|] w1];
      [discriminate | exact Hm].
Qed.

(** ** The pipelines: how many requests a run sends *)

Lemma costs_ret {A} (a : A) : costs (ret a) 0.
Proof. intros w. cbn. lia. Qed.

Lemma costs_weaken {A} (m : M A) (k k' : nat) : costs m k -> (k <= k')%nat -> costs m k'.
Proof. intros H Hle w. specialize (H w). lia. Qed.

Lemma costs_bind {A B} (m : M A) (f : A -> M B) (k1 k2 : nat) :
  costs m k1 -> (forall a, costs (f a) k2) -> costs (bind m f) (k1 + k2).
Proof.
  intros Hm Hf w. unfold bind. specialize (Hm w).
  destruct (m w) as [[a|] w1]; cbn [snd] in *; [|lia].
  specialize (Hf a w1). lia.
Qed.

Lemma costs_try_catch {A} (m h : M A) (k1 k2 : nat) :
  costs m k1 -> costs h k2 -> costs (try_catch m h) (k1 + k2).
Proof.
  intros Hm Hh w. unfold try_catch. specialize (Hm w).
  destruct (m w) as [[a|] w1]; cbn [snd] in *; [lia|].
  specialize (Hh w1). lia.
Qed.

Lemma costs_settle {A} (m : M A) (k : nat) : costs m k -> costs (settle m) k.
Proof. intros Hm w. unfold settle. specialize (Hm w). destruct (m w). exact Hm. Qed.

Lemma costs_await {A} (r : result A) : costs (await r) 0.
Proof. intros w. destruct r; cbn; lia. Qed.

Lemma costs_fetchData {A} (ask : nat -> option A) (url : request) (retries : nat) :
  costs (fetchData ask url retries) (retries + 1).
Proof.
  intros w. pose proof (fetchData_attempts ask url retries w) as H.
  cbv zeta in H. destruct H as (k & Hk & -> & _). rewrite length_app, repeat_length. lia.
Qed.

Lemma costs_klines_indicator {A} (sym interval : string) (q : klines_query)
    (f : list candle -> A) (dflt : A) :
  costs (try_catch (let* ohlcv := fetch_klines up sym interval q in ret (f ohlcv)) (ret dflt)) 3.
Proof.
  apply (costs_try_catch _ _ 3 0); [|apply costs_ret].
  apply (costs_bind _ _ 3 0); [apply (costs_fetchData _ _ 2) | intros; apply costs_ret].
Qed.

Lemma costs_calculate_all (now : Z) (sym : string) (volume : jsnum) :
  costs (calculate_all sqrtQ up now sym volume) 18.
Proof.
  unfold calculate_all.
  apply (costs_bind _ _ 3 15); [apply costs_klines_indicator | intros ?].
  apply (costs_bind _ _ 3 12); [apply costs_klines_indicator | intros ?].
  apply (costs_bind _ _ 3 9); [apply costs_klines_indicator | intros ?].
  apply (costs_bind _ _ 3 6); [apply costs_klines_indicator | intros ?].
  apply (costs_bind _ _ 3 3); [apply costs_klines_indicator | intros ?].
  apply (costs_bind _ _ 3 0); [apply costs_klines_indicator | intros ?].
  apply costs_ret.
Qed.

Lemma costs_getNewListings (now : Z) : costs (getNewListings up now) 3.
Proof.
  intros w. destruct (getNewListings_ok up now w) as (l & w' & d & Hrun & _).
  unfold getNewListings in *. cbv [try_catch bind get_world] in *.
  destruct (cache_get now (longCache w) "newListings"); [cbn; lia|].
  pose proof (costs_fetchData (up_exchangeInfo up) ReqExchangeInfo 2 w) as Hc.
  destruct (fetchData (up_exchangeInfo up) ReqExchangeInfo 2 w) as [[listings|] w1];
    cbn [snd] in *; cbv [set_longCache ret]; cbn [snd w_log]; lia.
Qed.

Lemma costs_explosion_scan (now : Z) (newListings : list string) (ts : list ticker)
    (acc : list candidate) :
  costs (explosion_scan sqrtQ up now newListings ts acc) (18 * length ts).
Proof.
  revert acc. induction ts as [|t rest IH]; intros acc; cbn [explosion_scan length].
  - apply costs_ret.
  - destruct (negb (endsWith (t_symbol t) "USDT") || popular (t_symbol t));
      [eapply costs_weaken; [apply IH | lia]|].
    destruct (JNum (baseVolume t) <? JNum CONFIG.MIN_VOLUME_EXPLOSION)%js;
      [eapply costs_weaken; [apply IH | lia]|].
    eapply costs_weaken;
      [apply (costs_bind _ _ 18 (18 * length rest));
       [apply costs_calculate_all | intros ind; apply IH] | lia].
Qed.

Lemma costs_alert_scan (now : Z) (newListings : list string) (ts : list ticker)
    (acc : list alert) :
  costs (alert_scan sqrtQ up now newListings ts acc) (18 * length ts).
Proof.
  revert acc. induction ts as [|t rest IH]; intros acc; cbn [alert_scan length].
  - apply costs_ret.
  - destruct (negb (endsWith (t_symbol t) "USDT") || popular (t_symbol t));
      [eapply costs_weaken; [apply IH | lia]|].
    destruct (JNum (baseVolume t) <? JNum CONFIG.MIN_VOLUME_REGULAR)%js;
      [eapply costs_weaken; [apply IH | lia]|].
    eapply costs_weaken;
      [apply (costs_bind _ _ 18 (18 * length rest));
       [apply costs_calculate_all | intros ind; apply IH] | lia].
Qed.

Lemma costs_set_shortCache (c : gmap string (payload * Z)) : costs (set_shortCache c) 0.
Proof. intros w. cbn. lia. Qed.

Lemma costs_get_world : costs get_world 0.
Proof. intros w. cbn. lia. Qed.

(** A run of a pipeline sends 906 requests at most, whatever the size of the
    snapshot: 3 for the snapshot, 3 for the listing and, for each of the 50
    tickers it looks at, 6 indicator fetches of 3 tries. *)
Theorem pipeline_sends_at_most_906_requests (now : Z) (w : world) :
  (length (w_log (snd (explosion_candidates sqrtQ up now w))) <= length (w_log w) + 906)%nat
  /\ (length (w_log (snd (pre_explosion_signals sqrtQ up now w))) <= length (w_log w) + 906)%nat.
Proof.
  split.
  - apply (costs_try_catch _ _ 906 0); [|apply costs_ret].
    apply (costs_bind _ _ 0 906); [apply costs_get_world | intros w0].
    destruct (cache_get now (shortCache w0) "explosionCandidates");
      [eapply costs_weaken; [apply costs_ret | lia]|].
    apply (costs_bind _ _ 3 903); [apply costs_settle, (costs_fetchData _ _ 2) | intros tp].
    apply (costs_bind _ _ 3 900); [apply costs_getNewListings | intros nl].
    apply (costs_bind _ _ 0 900); [apply costs_await | intros td].
    apply (costs_bind _ _ 900 0).
    + eapply costs_weaken; [apply costs_explosion_scan|].
      pose proof (firstn_le_length CONFIG.MAX_CANDIDATES td).
      unfold CONFIG.MAX_CANDIDATES in *. lia.
    + intros cands. apply (costs_bind _ _ 0 0); [apply costs_get_world | intros w1].
      apply (costs_bind _ _ 0 0); [apply costs_set_shortCache | intros _]. apply costs_ret.
  - apply (costs_try_catch _ _ 906 0); [|apply costs_ret].
    apply (costs_bind _ _ 0 906); [apply costs_get_world | intros w0].
    destruct (cache_get now (shortCache w0) "preExplosionSignals");
      [eapply costs_weaken; [apply costs_ret | lia]|].
    apply (costs_bind _ _ 3 903); [apply costs_settle, (costs_fetchData _ _ 2) | intros tp].
    apply (costs_bind _ _ 3 900); [apply costs_getNewListings | intros nl].
    apply (costs_bind _ _ 0 900); [apply costs_await | intros td].
    apply (costs_bind _ _ 900 0).
    + eapply costs_weaken; [apply costs_alert_scan|].
      pose proof (firstn_le_length CONFIG.MAX_CANDIDATES td).
      unfold CONFIG.MAX_CANDIDATES in *. lia.
    + intros cands. apply (costs_bind _ _ 0 0); [apply costs_get_world | intros w1].
      apply (costs_bind _ _ 0 0); [apply costs_set_shortCache | intros _]. apply costs_ret.
Qed.

End MoreProperties.

(** ** RecommendationBuilder of the explosion candidates *)

(** An explosion candidate has two tiers only: it says "buy" exactly when
    its score is 80 or more, with the highest confidence exactly then, and
    "watch" otherwise; it never says "avoid".  Its RSI is in the band and the
    price to buy at is the last price. *)
Theorem explosion_candidate_recommendation (t : ticker) (price volume : jsnum)
    (ind : indicators) (new : bool) (c : candidate) :
  explosion_entry t price volume ind new = Some c ->
  let r := c_recommendation c in
  (r_action r = COMPRA_FUERTE <-> (explosionScore c >=? JNum 80)%js = true)
  /\ (r_action r = MONITOREAR <-> (explosionScore c <? JNum 80)%js = true)
  /\ r_action r <> EVITAR
  /\ (r_confidence r = MUY_ALTA <-> r_action r = COMPRA_FUERTE)
  /\ buyPrice r = price
  /\ rsi_in_band (c_rsi c) = true.
Proof.
  intros Hc r. subst r. pose proof (explosion_entry_Some _ _ _ _ _ _ Hc) as
    (_ & _ & _ & Hrsi & _ & _ & _ & Hadm).
  apply explosion_admitted_spec in Hadm. destruct Hadm as (_ & _ & _ & Hlo & Hhi & H40).
  pose proof (ge_true_not_nan _ _ H40) as Hnan.
  unfold explosion_entry in Hc.
  destruct (explosion_admitted _ _ _ _ _); [|discriminate]. injection Hc as <-.
  cbn [c_recommendation c_rsi explosionScore] in *.
  unfold explosion_recommendation. cbn [r_action r_confidence buyPrice].
  rewrite lt_is_not_ge by exact Hnan.
  split; [|split; [|split; [|split; [|split]]]].
  - destruct (_ >=? JNum 80)%js; intuition congruence.
  - destruct (_ >=? JNum 80)%js; cbn [negb]; intuition congruence.
  - destruct (_ >=? JNum 80)%js; congruence.
  - destruct (_ >=? JNum 80)%js; intuition congruence.
  - reflexivity.
  - unfold rsi_in_band. apply andb_true_iff. split; [exact Hlo | exact Hhi].
Qed.

Lemma explosion_candidate_recommendation_witness :
  exists c, explosion_entry (Data.tick "NEWUSDT" 50000) (JNum 2) (JNum 50000)
              (Data.worked true) false = Some c
            /\ r_action (c_recommendation c) <> EVITAR
            /\ rsi_in_band (c_rsi c) = true.
Proof.
  eexists. split; [reflexivity|].
  refine (let H := explosion_candidate_recommendation (Data.tick "NEWUSDT" 50000) (JNum 2)
                     (JNum 50000) (Data.worked true) false _ eq_refl in _).
  split; [apply H | apply H].
Defined.

(** ** The theorems of the sections at concrete inputs *)

Lemma volatility_short_window_is_NaN_witness :
  volatility Data.sqrtQ (Data.candles [100]) = JNaN.
Proof. apply volatility_short_window_is_NaN. cbn. lia. Defined.

Lemma compressed_window_has_low_volatility_witness :
  exists v : Q, volatility Data.sqrtQ (Data.candles [100; 100]) = JNum v /\ v <= 1 # 2.
Proof.
  apply compressed_window_has_low_volatility. vm_compute. reflexivity.
Defined.


Lemma getNewListings_hit_or_failure_witness :
  exists w', getNewListings Data.rising_upstream 1000 empty_world = (Ok [], w')
             /\ w_log w' = [ReqExchangeInfo; ReqExchangeInfo; ReqExchangeInfo].
Proof.
  destruct (proj2 (getNewListings_hit_or_failure Data.rising_upstream 1000 empty_world))
    as (w' & Hrun & Hlog & _).
  - reflexivity.
  - reflexivity.
  - exists w'. split; [exact Hrun | exact Hlog].
Defined.

Lemma top_gainers_are_the_best_ten_witness :
  exists top,
    fst (top_gainers Data.rising_upstream empty_world)
    = Ok (Body (map (fun t => {| g_symbol := t_symbol t;
                                 g_price := JNum (lastPrice t);
                                 g_priceChangePercent := JNum (priceChangePercent t) |})
                  top))
    /\ (length top <= 10)%nat.
Proof.
  destruct (top_gainers_are_the_best_ten Data.rising_upstream empty_world
              {| w_log := [ReqTicker24hr]; shortCache := ∅; longCache := ∅ |}
              [Data.tick "BTCUSDT" 1000000; Data.tick "NEWUSDT" 50000])
    as (top & Hrun & Hlen & _).
  - reflexivity.
  - exists top. rewrite Hrun. split; [reflexivity | exact Hlen].
Defined.

Lemma top_gainers_failure_witness :
  exists w',
    top_gainers
      {| up_klines := fun _ _ _ _ => None; up_ticker24hr := fun _ => None;
         up_ticker := fun _ _ => None; up_exchangeInfo := fun _ => None |} empty_world
    = (Ok (Error500 "Error fetching top gainers"), w').
Proof.
  destruct (top_gainers_failure
              {| up_klines := fun _ _ _ _ => None; up_ticker24hr := fun _ => None;
                 up_ticker := fun _ _ => None; up_exchangeInfo := fun _ => None |} empty_world)
    as (w' & Hrun & _).
  - reflexivity.
  - exists w'. exact Hrun.
Defined.

Lemma fresh_result_is_served_for_120s_witness :
  let out := explosion_candidates Data.sqrtQ Data.crowded_upstream 1000 empty_world in
  explosion_candidates Data.sqrtQ Data.crowded_upstream 121000 (snd out)
  = (Ok (Json (PCandidates [])), snd out).
Proof.
  intros out.
  refine (proj1 (fresh_result_is_served_for_120s Data.sqrtQ Data.crowded_upstream 1000 121000
                   empty_world (snd out) (PCandidates []) _) _ _).
  - lia.
  - reflexivity.
  - vm_compute. reflexivity.
Defined.

Lemma failed_snapshot_is_an_error_and_is_not_cached_witness :
  exists w',
    explosion_candidates Data.sqrtQ
      {| up_klines := fun _ _ _ _ => None; up_ticker24hr := fun _ => None;
         up_ticker := fun _ _ => None; up_exchangeInfo := fun _ => None |} 1000 empty_world
    = (Ok (Status500 "Internal server error"), w')
    /\ shortCache w' = ∅.
Proof.
  refine (proj1 (failed_snapshot_is_an_error_and_is_not_cached Data.sqrtQ
                   {| up_klines := fun _ _ _ _ => None; up_ticker24hr := fun _ => None;
                      up_ticker := fun _ _ => None; up_exchangeInfo := fun _ => None |}
                   1000 empty_world _) _); reflexivity.
Defined.

(** ** The notification forwarder *)

Lemma score_ge_80_60 (t : Bot.token) : Bot.score_ge t 80 = true -> Bot.score_ge t 60 = true.
Proof.
  unfold Bot.score_ge. destruct (Bot.tk_explosionScore t) as [q|]; [|discriminate].
  rewrite !Qle_bool_iff. intros. lra.
Qed.

Lemma bot_send_alerts_sent (e : Bot.env) (top : list Bot.token) (s : Bot.state) :
  exists news,
    Bot.sent (snd (Bot.send_alerts e top s)) = Bot.sent s ++ news
    /\ Bot.api_calls (snd (Bot.send_alerts e top s)) = Bot.api_calls s
    /\ Forall (fun m => In (Bot.m_token m) top
                        /\ Bot.score_ge (Bot.m_token m) 60 = true
                        /\ (Bot.m_level m = Bot.Strong <->
                            Bot.score_ge (Bot.m_token m) 80 = true)) news.
Proof.
  revert s. induction top as [|t rest IH]; intros s; cbn [Bot.send_alerts].
  - exists []. rewrite app_nil_r. repeat split. constructor.
  - assert (Hrest : forall s' : Bot.state,
              Bot.api_calls s' = Bot.api_calls s ->
              forall pre, Bot.sent s' = Bot.sent s ++ pre ->
              Forall (fun m => In (Bot.m_token m) (t :: rest)
                               /\ Bot.score_ge (Bot.m_token m) 60 = true
                               /\ (Bot.m_level m = Bot.Strong <->
                                   Bot.score_ge (Bot.m_token m) 80 = true)) pre ->
              exists news,
                Bot.sent (snd (Bot.send_alerts e rest s')) = Bot.sent s ++ news
                /\ Bot.api_calls (snd (Bot.send_alerts e rest s')) = Bot.api_calls s
                /\ Forall (fun m => In (Bot.m_token m) (t :: rest)
                                    /\ Bot.score_ge (Bot.m_token m) 60 = true
                                    /\ (Bot.m_level m = Bot.Strong <->
                                        Bot.score_ge (Bot.m_token m) 80 = true)) news).
    { intros s' Hapi pre Hpre Hok. destruct (IH s') as (news & Hs & Ha & Hn).
      exists (pre ++ news). rewrite Hs, Hpre, Ha, Hapi, <- app_assoc.
      split; [reflexivity|]. split; [reflexivity|].
      apply Forall_app. split; [exact Hok|].
      eapply List.Forall_impl; [|exact Hn]. intros m (Hin & H60 & Hlvl).
      split; [right; exact Hin | split; assumption]. }
    destruct (Bot.score_ge t 80) eqn:H80; [|destruct (Bot.score_ge t 60) eqn:H60].
    + unfold Bot.send. destruct (Bot.sendMessage e (Bot.send_calls s) _).
      * cbv iota beta.
        eapply Hrest with (pre := [ {| Bot.m_level := Bot.Strong; Bot.m_token := t |} ]);
          [reflexivity | reflexivity |].
        constructor; [|constructor]. cbn.
        split; [left; reflexivity|]. split; [apply score_ge_80_60, H80 | tauto].
      * exists []. cbn [snd Bot.sent Bot.api_calls]. rewrite app_nil_r.
        repeat split. constructor.
    + unfold Bot.send. destruct (Bot.sendMessage e (Bot.send_calls s) _).
      * cbv iota beta.
        eapply Hrest with (pre := [ {| Bot.m_level := Bot.Moderate; Bot.m_token := t |} ]);
          [reflexivity | reflexivity |].
        constructor; [|constructor]. cbn.
        split; [left; reflexivity|]. split; [exact H60|].
        rewrite H80. split; discriminate.
      * exists []. cbn [snd Bot.sent Bot.api_calls]. rewrite app_nil_r.
        repeat split. constructor.
    + apply (Hrest s eq_refl [] (eq_sym (app_nil_r _))). constructor.
Qed.

(** Whatever the API and the channel do, a poll calls the API [retries + 1]
    times at most and sends alerts for tokens scoring 60 or more only, a
    strong one exactly for a score of 80 or more: a candidate that the API
    returns with a score between 40 and 60 is never forwarded. *)
Theorem bot_forwards_scores_of_60_or_more_only (e : Bot.env) (retries : nat) (s : Bot.state) :
  exists news,
    Bot.sent (Bot.fetchAndSendAlerts e retries s) = Bot.sent s ++ news
    /\ Forall (fun m => Bot.score_ge (Bot.m_token m) 60 = true
                        /\ (Bot.m_level m = Bot.Strong <->
                            Bot.score_ge (Bot.m_token m) 80 = true)) news
    /\ (Bot.api_calls s < Bot.api_calls (Bot.fetchAndSendAlerts e retries s)
        <= Bot.api_calls s + retries + 1)%nat.
Proof.
  assert (Hattempt : forall s0,
            exists news,
              Bot.sent (snd (Bot.attempt e s0)) = Bot.sent s0 ++ news
              /\ Forall (fun m => Bot.score_ge (Bot.m_token m) 60 = true
                                  /\ (Bot.m_level m = Bot.Strong <->
                                      Bot.score_ge (Bot.m_token m) 80 = true)) news
              /\ Bot.api_calls (snd (Bot.attempt e s0)) = S (Bot.api_calls s0)).
  { intros s0. unfold Bot.attempt.
    destruct (Bot.api_get e (Bot.api_calls s0)) as [[[|t ts]|]|];
      try (exists []; cbn; rewrite app_nil_r; repeat split; constructor).
    match goal with
    | |- context [Bot.send_alerts e ?top ?s1] =>
        destruct (bot_send_alerts_sent e top s1) as (news & Hs & Ha & Hn)
    end.
    exists news. rewrite Hs, Ha. split; [reflexivity|]. split; [|reflexivity].
    eapply List.Forall_impl; [|exact Hn]. intros m (_ & H). exact H. }
  revert s. induction retries as [|r IH]; intros s; cbn [Bot.fetchAndSendAlerts];
    destruct (Hattempt s) as (news & Hs & Hn & Ha);
    destruct (Bot.attempt e s) as [[|] s1]; cbn [snd] in *;
    try (exists news; split; [exact Hs|]; split; [exact Hn | lia]).
  destruct (IH s1) as (news' & Hs' & Hn' & Ha').
  exists (news ++ news'). rewrite Hs', Hs, <- app_assoc. split; [reflexivity|].
  split; [apply Forall_app; split; assumption | lia].
Qed.

Lemma bot_send_alerts_from (e : Bot.env) (j : nat) (top : list Bot.token) (s : Bot.state) :
  (forall n m, (j <= n)%nat -> Bot.sendMessage e n m = true) ->
  (j <= Bot.send_calls s)%nat ->
  Bot.send_alerts e top s
  = (true, {| Bot.api_calls := Bot.api_calls s;
              Bot.send_calls := Bot.send_calls s + length (Bot.alerts_of top);
              Bot.sent := Bot.sent s ++ Bot.alerts_of top |}).
Proof.
  intros Hsend. revert s. induction top as [|t rest IH]; intros s Hj;
    cbn [Bot.send_alerts Bot.alerts_of flat_map].
  - cbn. rewrite app_nil_r, Nat.add_0_r. destruct s; reflexivity.
  - fold (Bot.alerts_of rest).
    destruct (Bot.score_ge t 80); [|destruct (Bot.score_ge t 60)].
    + unfold Bot.send. rewrite (Hsend _ _ Hj). rewrite IH by (cbn; lia).
      cbn [Bot.api_calls Bot.send_calls Bot.sent app length]. rewrite <- app_assoc.
      do 2 f_equal. lia.
    + unfold Bot.send. rewrite (Hsend _ _ Hj). rewrite IH by (cbn; lia).
      cbn [Bot.api_calls Bot.send_calls Bot.sent app length]. rewrite <- app_assoc.
      do 2 f_equal. lia.
    + cbn [app]. apply IH, Hj.
Qed.



Lemma bot_send_alerts_fails_at (e : Bot.env) (j : nat) (top : list Bot.token) (s : Bot.state)
    (pre post : list Bot.message) (m : Bot.message) :
  (forall n msg, Bot.sendMessage e n msg = negb (n =? j)%nat) ->
  Bot.alerts_of top = pre ++ m :: post ->
  (Bot.send_calls s + length pre)%nat = j ->
  Bot.send_alerts e top s
  = (false, {| Bot.api_calls := Bot.api_calls s; Bot.send_calls := S j;
               Bot.sent := Bot.sent s ++ pre |}).
Proof.
  intros Hsend. revert s pre. induction top as [|t rest IH]; intros s pre Halerts Hj;
    cbn [Bot.send_alerts Bot.alerts_of flat_map] in *.
  - destruct pre; discriminate.
  - fold (Bot.alerts_of rest) in Halerts.
    assert (Hstep : forall x : Bot.message,
              [x] ++ Bot.alerts_of rest = pre ++ m :: post ->
              match Bot.send e x s with
              | (true, s') => Bot.send_alerts e rest s'
              | (false, s') => (false, s')
              end
              = (false, {| Bot.api_calls := Bot.api_calls s; Bot.send_calls := S j;
                           Bot.sent := Bot.sent s ++ pre |})).
    { intros x Hx. unfold Bot.send. rewrite Hsend. destruct pre as [|x' pre'].
      - cbn in Hj. rewrite Nat.add_0_r in Hj. subst j. rewrite Nat.eqb_refl. cbn [negb].
        rewrite app_nil_r. reflexivity.
      - cbn [app] in Hx. injection Hx as <- Hrest. cbn [length] in Hj.
        destruct (Nat.eqb_spec (Bot.send_calls s) j) as [E|_]; [lia|]. cbn [negb].
        rewrite (IH _ pre' Hrest) by (cbn; lia).
        cbn [Bot.api_calls Bot.sent]. rewrite <- app_assoc. reflexivity. }
    destruct (Bot.score_ge t 80); [apply Hstep, Halerts|].
    destruct (Bot.score_ge t 60); [apply Hstep, Halerts|].
    apply IH; assumption.
Qed.



(** ** The routes: exceptions and caches *)

Lemma try_catch_ret_never_throws {A} (m : M A) (a : A) (w : world) :
  exists r, fst (try_catch m (ret a) w) = Ok r.
Proof.
  unfold try_catch. destruct (m w) as [[r|] w1]; eexists; reflexivity.
Qed.

Lemma keeps_ret {A} (a : A) : keeps_caches (ret a).
Proof. intros w. split; reflexivity. Qed.

Lemma keeps_bind {A B} (m : M A) (f : A -> M B) :
  keeps_caches m -> (forall a, keeps_caches (f a)) -> keeps_caches (bind m f).
Proof.
  intros Hm Hf w. unfold bind. destruct (Hm w) as [Hs Hl].
  destruct (m w) as [[a|] w1]; cbn [snd] in *; [|split; assumption].
  destruct (Hf a w1) as [Hs' Hl']. split; congruence.
Qed.

Lemma keeps_try_catch {A} (m h : M A) :
  keeps_caches m -> keeps_caches h -> keeps_caches (try_catch m h).
Proof.
  intros Hm Hh w. unfold try_catch. destruct (Hm w) as [Hs Hl].
  destruct (m w) as [[a|] w1]; cbn [snd] in *; [split; assumption|].
  destruct (Hh w1) as [Hs' Hl']. split; congruence.
Qed.

Lemma keeps_fetchData {A} (ask : nat -> option A) (url : request) (retries : nat) :
  keeps_caches (fetchData ask url retries).
Proof.
  intros w. pose proof (fetchData_attempts ask url retries w) as H.
  cbv zeta in H. destruct H as (k & _ & _ & Hs & Hl & _). split; assumption.
Qed.

Section Routes.

Variable sqrtQ : Q -> Q.
Variable up : upstream.

Lemma keeps_klines_indicator {A} (sym interval : string) (q : klines_query)
    (f : list candle -> A) (dflt : A) :
  keeps_caches
    (try_catch (let* ohlcv := fetch_klines up sym interval q in ret (f ohlcv)) (ret dflt)).
Proof.
  apply keeps_try_catch; [|apply keeps_ret].
  apply keeps_bind; [apply keeps_fetchData | intros; apply keeps_ret].
Qed.

Lemma keeps_calculate_all (now : Z) (sym : string) (volume : jsnum) :
  keeps_caches (calculate_all sqrtQ up now sym volume).
Proof.
  unfold calculate_all.
  repeat (apply keeps_bind; [apply keeps_klines_indicator | intros ?]).
  apply keeps_ret.
Qed.

(** No exception escapes a route: each of the five always answers. *)
Theorem no_route_throws (now : Z) (param : string) (w : world) :
  (exists r, fst (top_gainers up w) = Ok r)
  /\ (exists r, fst (explosion_candidates sqrtQ up now w) = Ok r)
  /\ (exists r, fst (pre_explosion_signals sqrtQ up now w) = Ok r)
  /\ (exists r, fst (new_listings up now w) = Ok r)
  /\ (exists r, fst (analysis_symbol sqrtQ up now param w) = Ok r).
Proof.
  repeat split; apply try_catch_ret_never_throws.
Qed.

(** The analysis route is uncached: it reads and writes neither store, it
    sends 21 requests at most (3 for the ticker, 18 for the indicators), and
    it answers 500 exactly when the ticker of the symbol cannot be fetched. *)
Theorem analysis_symbol_is_uncached (now : Z) (param : string) (w : world) :
  let out := analysis_symbol sqrtQ up now param w in
  shortCache (snd out) = shortCache w
  /\ longCache (snd out) = longCache w
  /\ (length (w_log (snd out)) <= length (w_log w) + 21)%nat
  /\ (fst out = Ok (Status500 "Error in individual analysis") <->
      fst (fetchData (fun n => up_ticker up n (toUpperCase param))
             (ReqTicker (toUpperCase param)) 2 w) = Throw).
Proof.
  intros out.
  assert (Hkeeps : keeps_caches (analysis_symbol sqrtQ up now param)).
  { apply keeps_try_catch; [|apply keeps_ret].
    apply keeps_bind; [apply keeps_fetchData | intros data].
    apply keeps_bind; [apply keeps_calculate_all | intros ind]. apply keeps_ret. }
  assert (Hcosts : costs (analysis_symbol sqrtQ up now param) 21).
  { apply (costs_try_catch _ _ 21 0); [|apply costs_ret].
    apply (costs_bind _ _ 3 18); [apply (costs_fetchData _ _ 2) | intros data].
    apply (costs_bind _ _ 18 0); [apply costs_calculate_all | intros ind]. apply costs_ret. }
  destruct (Hkeeps w) as [Hs Hl]. split; [exact Hs|]. split; [exact Hl|].
  split; [apply Hcosts|].
  destruct (analysis_symbol_ok sqrtQ up now param w) as (resp & w' & Hrun & _ & Hresp).
  subst out. rewrite Hrun. cbn [fst].
  destruct (fst (fetchData _ _ 2 w)) as [data|].
  - destruct Hresp as (a & -> & _). split; discriminate.
  - rewrite Hresp. split; reflexivity.
Qed.

End Routes.
